(** * Amalek-tgpt relay: a shallow embedding of [api.py]

    The relay receives a chat query, launches the [tgpt] command line tool
    once per provider, collects the replies, records them in a MariaDB
    table and optionally appends them to a dataset file.  This file embeds
    the functions of [api.py] as Rocq functions over an explicit world
    (module globals, database, file system, console, launched processes,
    clock) and proves the properties of the specification about them. *)

From Stdlib Require Import String Ascii NArith ZArith Lia.
From stdpp Require Import base option list gmap.

Set Default Proof Using "Type".

(** ** Python values *)

(** A Python [str] is a sequence of Unicode code points. *)
Abbreviation pystr := (list N).

(** An ASCII literal of the source, as a [str]. *)
Definition lit (s : string) : pystr :=
  map N_of_ascii (list_ascii_of_string s).
Global Arguments lit : simpl never.

(** Truth value of a [str]: the empty string is falsy. *)
Definition truthy (s : pystr) : bool :=
  match s with
  | [] => false
  | _ :: _ => true
  end.

(** [a or b] on strings. *)
Definition py_or (a b : pystr) : pystr :=
  if truthy a then a else b.

(** [o or d] where [o] may be [None] (a missing form field or dict key). *)
Definition opt_or (o : option pystr) (d : pystr) : pystr :=
  match o with
  | Some s => py_or s d
  | None => d
  end.

(** The characters [str.strip()] removes: CPython's [_PyUnicode_IsWhitespace]. *)
Definition is_space (c : N) : bool :=
  ((9 <=? c) && (c <=? 13)
   || (28 <=? c) && (c <=? 32)
   || (c =? 133) || (c =? 160) || (c =? 5760)
   || (8192 <=? c) && (c <=? 8202)
   || (c =? 8232) || (c =? 8233) || (c =? 8239) || (c =? 8287)
   || (c =? 12288))%N.

Fixpoint lstrip (s : pystr) : pystr :=
  match s with
  | [] => []
  | c :: r => if is_space c then lstrip r else s
  end.

Definition rstrip (s : pystr) : pystr := rev (lstrip (rev s)).

(** [s.strip()] *)
Definition strip (s : pystr) : pystr := rstrip (lstrip s).

(** An instance of a subclass of [Exception]: its class name and [str(e)]. *)
Record PyException := mkExc { exc_class : pystr; exc_str : pystr }.

(** What evaluating a Python expression does: it returns or it raises. *)
Inductive outcome (A : Type) : Type :=
| Ret (a : A)
| Raise (e : PyException).
Arguments Ret {A} a.
Arguments Raise {A} e.

(** ** The world *)

(** A row of the [conversations] table (the [id] column is the position). *)
Record Row := mkRow {
  row_session_id : pystr;
  row_provider : pystr;
  row_message : pystr;
  row_type : pystr;
  row_timestamp : pystr
}.

(** The database behind the connection: the table in insertion order, and
    whether the server currently rejects statements (with which error). *)
Record Database := mkDb {
  conversations : list Row;
  db_fault : option PyException
}.

(** [subprocess.CompletedProcess] with [capture_output=True, text=True]. *)
Record CompletedProcess := mkProc {
  returncode : Z;
  stdout : pystr;
  stderr : pystr
}.

(** Configuration and the behaviour of everything outside the process. *)
Record Env := mkEnv {
  TGPT_BIN : pystr;
  TGPT_TIMEOUT : N;
  DATASET_DIR : pystr;
  (** [subprocess.run(cmd, capture_output=True, text=True, timeout=t)] *)
  subprocess_run : list pystr -> N -> outcome CompletedProcess;
  (** [create_subprocess_exec] on the command followed by [communicate()], both
      streams decoded with [errors="ignore"] *)
  async_exec : list pystr -> N -> outcome CompletedProcess;
  (** [datetime.now().strftime("%Y-%m-%d %H:%M:%S")] at the n-th reading *)
  clock : nat -> pystr;
  (** [int(time.time())] at the n-th reading *)
  epoch : nat -> N;
  (** the order in which the pool's workers happen to run *)
  finish_order : list nat
}.

Record World := mkWorld {
  USE_DB : bool;
  db_conn : option Database;
  files : gmap (list N) (list N);
  printed : list pystr;
  launched : list (list pystr);
  ticks : nat
}.

Definition set_db (d : option Database) (w : World) : World :=
  mkWorld (USE_DB w) d (files w) (printed w) (launched w) (ticks w).
Definition set_files (f : gmap (list N) (list N)) (w : World) : World :=
  mkWorld (USE_DB w) (db_conn w) f (printed w) (launched w) (ticks w).
Definition set_printed (p : list pystr) (w : World) : World :=
  mkWorld (USE_DB w) (db_conn w) (files w) p (launched w) (ticks w).
Definition set_launched (l : list (list pystr)) (w : World) : World :=
  mkWorld (USE_DB w) (db_conn w) (files w) (printed w) l (ticks w).
Definition set_ticks (n : nat) (w : World) : World :=
  mkWorld (USE_DB w) (db_conn w) (files w) (printed w) (launched w) n.

(** ** Computations: state passing with exceptions *)

Definition M (A : Type) : Type := World -> outcome A * World.

Definition ret {A} (a : A) : M A := fun w => (Ret a, w).
Definition bind {A B} (m : M A) (k : A -> M B) : M B :=
  fun w =>
    match m w with
    | (Ret a, w') => k a w'
    | (Raise e, w') => (Raise e, w')
    end.

(** [try: body  except Exception as e: handler(e)] *)
Definition try_except {A} (body : M A) (handler : PyException -> M A) : M A :=
  fun w =>
    match body w with
    | (Ret a, w') => (Ret a, w')
    | (Raise e, w') => handler e w'
    end.

Definition get_world : M World := fun w => (Ret w, w).
Definition modify (f : World -> World) : M unit := fun w => (Ret tt, f w).

Declare Scope py_scope.
Delimit Scope py_scope with py.
Notation "'let*' x ':=' c 'in' k" := (bind c (fun x => k))
  (at level 10, x pattern, c at level 100, k at level 200) : py_scope.
Notation "'do' c 'then' k" := (bind c (fun _ => k))
  (at level 10, c at level 100, k at level 200) : py_scope.
Open Scope py_scope.

(** [print(...)]: one line on the console. *)
Definition print (line : pystr) : M unit :=
  modify (fun w => set_printed (printed w ++ [line]) w).

(** [_now_str()] *)
Definition _now_str (env : Env) : M pystr :=
  fun w => (Ret (clock env (ticks w)), set_ticks (S (ticks w)) w).

(** ** Providers and tgpt *)

Definition VALID_PROVIDERS : list pystr :=
  [lit "pollinations"; lit "sky"; lit "phind"; lit "koboldai"; lit "kimi"].
Definition GROUP_LIST : list pystr := VALID_PROVIDERS.

(** The command line of one invocation. *)
Definition tgpt_cmd (env : Env) (provider prompt : pystr) : list pystr :=
  [TGPT_BIN env; lit "-w"; lit "--provider"; provider; prompt].

(** Launching a process is visible in the world, whatever comes of it. *)
Definition launch (run : list pystr -> N -> outcome CompletedProcess)
    (cmd : list pystr) (timeout : N) : M CompletedProcess :=
  fun w => (run cmd timeout, set_launched (launched w ++ [cmd]) w).

(** f"[{provider} error] {msg}" *)
Definition fmt_error (provider msg : pystr) : pystr :=
  lit "[" ++ provider ++ lit " error] " ++ msg.

(** f"[{provider}] (no output)" *)
Definition fmt_no_output (provider : pystr) : pystr :=
  lit "[" ++ provider ++ lit "] (no output)".

Definition run_tgpt (env : Env) (provider prompt : pystr) : M pystr :=
  let cmd := tgpt_cmd env provider prompt in
  try_except
    (let* out := launch (async_exec env) cmd (TGPT_TIMEOUT env) in
     let stdout := strip (stdout out) in
     let stderr := strip (stderr out) in
     if truthy stderr && negb (truthy stdout) then
       ret (fmt_error provider (take 800 stderr))
     else
       ret (py_or stdout (fmt_no_output provider)))
    (fun e => ret (fmt_error provider (exc_str e))).

Definition run_tgpt_blocking (env : Env) (provider prompt : pystr) : M pystr :=
  try_except
    (let* res := launch (subprocess_run env) (tgpt_cmd env provider prompt)
                        (TGPT_TIMEOUT env) in
     let text := strip (py_or (stdout res) []) in
     if negb (truthy text) then
       let err := strip (py_or (stderr res) []) in
       let text :=
         if truthy err then fmt_error provider (take 800 err)
         else fmt_no_output provider in
       ret text
     else ret text)
    (fun e => ret (fmt_error provider (exc_str e))).

(** ** The fan-out coordinator *)

(** The dict [{"provider": p, "reply": text, "timestamp": ts}]. *)
Record ProviderReply := mkReply {
  provider : pystr;
  reply : pystr;
  timestamp : pystr
}.

Section Pool.
Context {A : Type}.
(** the call submitted for each task, and the submitted tasks in order *)
Variable worker : pystr -> M A.
Variable tasks : list pystr.

(** The executor at work.  Slot [i] is the future of the i-th submitted
    call; a pending call whose turn comes runs against the current world
    and its future is resolved.  Turns of unknown or finished calls do
    nothing. *)
Fixpoint drain (order : list nat) (slots : list (option (outcome A)))
    (w : World) : list (option (outcome A)) * World :=
  match order with
  | [] => (slots, w)
  | i :: rest =>
      match tasks !! i, slots !! i with
      | Some p, Some None =>
          let '(r, w') := worker p w in
          drain rest (<[i := Some r]> slots) w'
      | _, _ => drain rest slots w
      end
  end.

(** [asyncio.gather] over the tasks with [return_exceptions=True]: the workers
    run in some order, every call is eventually run, and the results are
    read from the futures in submission order. *)
Definition gather (order : list nat) (w : World)
    : list (outcome A) * World :=
  let n := length tasks in
  let '(slots, w') := drain (order ++ seq 0 n) (replicate n None) w in
  (omap id slots, w').
End Pool.

(** The text kept for a gathered result: an exception is rendered, a
    string is kept as it is. *)
Definition reply_text (p : pystr) (r : outcome pystr) : pystr :=
  match r with
  | Raise e => fmt_error p (exc_str e)
  | Ret s => s
  end.

(** The loop over [zip(providers, results)]. *)
Fixpoint collect_replies (env : Env) (pairs : list (pystr * outcome pystr))
    : M (list ProviderReply) :=
  match pairs with
  | [] => ret []
  | (p, r) :: rest =>
      let text := reply_text p r in
      let* ts := _now_str env in
      let* out := collect_replies env rest in
      ret (mkReply p text ts :: out)
  end.

(** The coordinator, for any function submitted to the executor: it
    submits one call per provider, gathers the results and pairs them with
    the providers. *)
Definition ask_providers_parallel_with (worker : pystr -> pystr -> M pystr)
    (env : Env) (providers : list pystr) (prompt : pystr)
    : M (list ProviderReply) :=
  fun w =>
    let '(results, w1) :=
      gather (fun p => worker p prompt) providers (finish_order env) w in
    collect_replies env (zip providers results) w1.

(** [ask_providers_parallel] submits [run_tgpt_blocking]. *)
Definition ask_providers_parallel (env : Env)
    : list pystr -> pystr -> M (list ProviderReply) :=
  ask_providers_parallel_with (run_tgpt_blocking env) env.

(** ** Database (MariaDB) *)

(** Calling a method on [None]. *)
Definition none_has_no (attr : string) : PyException :=
  mkExc (lit "AttributeError")
        (lit "'NoneType' object has no attribute '" ++ lit attr ++ lit "'").

(** [db_conn.cursor()] *)
Definition cursor : M unit :=
  fun w =>
    match db_conn w with
    | None => (Raise (none_has_no "cursor"), w)
    | Some _ => (Ret tt, w)
    end.

(** [cur.execute(stmt)] with autocommit: the statement acts on the table
    unless the server rejects it. *)
Definition execute {A} (stmt : list Row -> A * list Row) : M A :=
  fun w =>
    match db_conn w with
    | None => (Raise (none_has_no "cursor"), w)
    | Some db =>
        match db_fault db with
        | Some e => (Raise e, w)
        | None =>
            let '(a, rows) := stmt (conversations db) in
            (Ret a, set_db (Some (mkDb rows None)) w)
        end
    end.

(** [INSERT INTO conversations ..] *)
Definition sql_insert (r : Row) (rows : list Row) : unit * list Row :=
  (tt, rows ++ [r]).

(** [SELECT .. WHERE session_id=%s ORDER BY id ASC LIMIT %s]; session
    identifiers are compared exactly (no collation). *)
Definition sql_select (session_id : pystr) (limit : nat) (rows : list Row)
    : list Row * list Row :=
  (take limit (filter (fun r => row_session_id r = session_id) rows), rows).

(** [DELETE .. WHERE session_id = %s]; a missing form field is [NULL],
    which equals no row's session. *)
Definition sql_delete (session_id : option pystr) (rows : list Row)
    : unit * list Row :=
  (tt, filter (fun r => Some (row_session_id r) <> session_id) rows).

Definition save_to_db (env : Env) (session_id provider message mtype : pystr)
    : M unit :=
  let* w := get_world in
  if negb (USE_DB w) then ret tt
  else
    try_except
      (do cursor then
       let* now := _now_str env in
       execute (sql_insert (mkRow session_id provider message mtype now)))
      (fun e => print (lit "[DB] insert failed: " ++ exc_str e)).

(** The dict [{"provider": .., "message": .., "timestamp": ..}]. *)
Record HistoryItem := mkHist {
  h_provider : pystr;
  h_message : pystr;
  h_timestamp : pystr
}.

Definition fetch_history (session_id : pystr) (limit : nat)
    : M (list HistoryItem) :=
  let* w := get_world in
  if negb (USE_DB w) then ret []
  else
    try_except
      (do cursor then
       let* rows := execute (sql_select session_id limit) in
       ret (map (fun r => mkHist (row_provider r) (row_message r)
                                 (row_timestamp r)) rows))
      (fun e =>
         do print (lit "[DB] history failed: " ++ exc_str e) then
         ret []).

(** ** Text encodings of the standard library *)

(** [str(n)] for a non-negative [int]. *)
Fixpoint uint_codes (d : Decimal.uint) : pystr :=
  match d with
  | Decimal.Nil => []
  | Decimal.D0 r => 48%N :: uint_codes r
  | Decimal.D1 r => 49%N :: uint_codes r
  | Decimal.D2 r => 50%N :: uint_codes r
  | Decimal.D3 r => 51%N :: uint_codes r
  | Decimal.D4 r => 52%N :: uint_codes r
  | Decimal.D5 r => 53%N :: uint_codes r
  | Decimal.D6 r => 54%N :: uint_codes r
  | Decimal.D7 r => 55%N :: uint_codes r
  | Decimal.D8 r => 56%N :: uint_codes r
  | Decimal.D9 r => 57%N :: uint_codes r
  end.

Definition str_of_N (n : N) : pystr := uint_codes (N.to_uint n).

(** [s.lower()] on the letters that lower to an ASCII letter (A-Z and the
    Kelvin sign); the relay only compares the result with ASCII words. *)
Definition lower_char (c : N) : N :=
  (if (65 <=? c) && (c <=? 90) then c + 32
   else if c =? 8490 then 107
   else c)%N.
Definition lower (s : pystr) : pystr := map lower_char s.

(** [s.replace(a, b)] for single characters. *)
Definition replace_char (a b : N) (s : pystr) : pystr :=
  map (fun c => if (c =? a)%N then b else c) s.

(** [sep.join(parts)] *)
Fixpoint join (sep : pystr) (parts : list pystr) : pystr :=
  match parts with
  | [] => []
  | [x] => x
  | x :: rest => x ++ sep ++ join sep rest
  end.

(** JSON values as the relay builds them: strings, [None], lists, dicts
    (in insertion order). *)
Unset Elimination Schemes.
Inductive json : Type :=
| JNull
| JStr (s : pystr)
| JArr (items : list json)
| JObj (members : list (pystr * json)).
Set Elimination Schemes.

Definition hex_digit (d : N) : N :=
  (if d <? 10 then 48 + d else 87 + d)%N.

(** One character of a string under [json.dumps(.., ensure_ascii=False)]. *)
Definition json_escape (c : N) : pystr :=
  (if c =? 34 then [92; 34]
   else if c =? 92 then [92; 92]
   else if c =? 10 then [92; 110]
   else if c =? 13 then [92; 114]
   else if c =? 9 then [92; 116]
   else if c =? 8 then [92; 98]
   else if c =? 12 then [92; 102]
   else if c <? 32 then [92; 117; 48; 48; hex_digit (c / 16); hex_digit (c mod 16)]
   else [c])%N.

Definition json_string (s : pystr) : pystr :=
  [34%N] ++ concat (map json_escape s) ++ [34%N].

(** [json.dumps(j, ensure_ascii=False)] *)
Fixpoint dumps (j : json) : pystr :=
  match j with
  | JNull => lit "null"
  | JStr s => json_string s
  | JArr items =>
      lit "[" ++
      (fix go (l : list json) : pystr :=
         match l with
         | [] => []
         | x :: r =>
             dumps x ++ match r with [] => [] | _ :: _ => lit ", " ++ go r end
         end) items ++
      lit "]"
  | JObj members =>
      lit "{" ++
      (fix go (l : list (pystr * json)) : pystr :=
         match l with
         | [] => []
         | (k, v) :: r =>
             json_string k ++ lit ": " ++ dumps v ++
             match r with [] => [] | _ :: _ => lit ", " ++ go r end
         end) members ++
      lit "}"
  end.

(** A field as [csv.writer] writes it (excel dialect, minimal quoting). *)
Definition csv_special (c : N) : bool :=
  ((c =? 44) || (c =? 34) || (c =? 13) || (c =? 10))%N.

Definition csv_field (s : pystr) : pystr :=
  if existsb csv_special s then
    [34%N] ++ concat (map (fun c => if (c =? 34)%N then [34%N; 34%N] else [c]) s)
    ++ [34%N]
  else s.

(** [writer.writerow(fields)] for a row of several fields. *)
Definition csv_row (fields : list pystr) : pystr :=
  join (lit ",") (map csv_field fields) ++ [13%N; 10%N].

(** ** Files / Datasets *)

(** The file system is a map from paths to the text of the files; opening
    and writing always succeed. *)

(** [fp.exists()] *)
Definition exists_ (fp : pystr) : M bool :=
  fun w => (Ret (bool_decide (is_Some (files w !! fp))), w).

(** [fp.open("a")]: the file is created when it is missing. *)
Definition open_append (fp : pystr) : M unit :=
  modify (fun w =>
    match files w !! fp with
    | Some _ => w
    | None => set_files (<[fp := []]> (files w)) w
    end).

(** [f.write(text)] on a file opened for appending. *)
Definition write (fp text : pystr) : M unit :=
  modify (fun w =>
    set_files (<[fp := default [] (files w !! fp) ++ text]> (files w)) w).

(** [DATASET_DIR / name]: the name holds no path separator, so the path is
    the directory, a separator and the name.  The path is kept as [str(fp)]. *)
Definition dataset_path (env : Env) (filename fmt : pystr) : M pystr :=
  let* name :=
    (if truthy filename then ret filename
     else fun w => (Ret (lit "dataset_" ++ str_of_N (epoch env (ticks w))),
                    set_ticks (S (ticks w)) w)) in
  let safe_name := replace_char 47 95 (strip name) in
  let ext := if decide (fmt = lit "csv") then lit ".csv" else lit ".json" in
  ret (DATASET_DIR env ++ lit "/" ++ safe_name ++ ext).

(** An element of [entries]; the key "type" may be missing. *)
Record Entry := mkEntry {
  e_provider : pystr;
  e_message : pystr;
  e_timestamp : pystr;
  e_type : option pystr
}.

Definition entry_type (e : Entry) : pystr := default (lit "bot") (e_type e).

(** The record written for one entry, in each encoding. *)
Definition csv_line (session_id : pystr) (e : Entry) : pystr :=
  csv_row [e_timestamp e; session_id; e_provider e; e_message e; entry_type e].

Definition json_line (session_id : pystr) (e : Entry) : pystr :=
  dumps (JObj [(lit "timestamp", JStr (e_timestamp e));
               (lit "session_id", JStr session_id);
               (lit "provider", JStr (e_provider e));
               (lit "message", JStr (e_message e));
               (lit "type", JStr (entry_type e))])
  ++ [10%N].

Definition lines_header : pystr :=
  csv_row [lit "timestamp"; lit "session_id"; lit "provider"; lit "message";
           lit "type"].

(** [for e in entries: write(render(e))] *)
Fixpoint write_each (fp : pystr) (render : Entry -> pystr)
    (entries : list Entry) : M unit :=
  match entries with
  | [] => ret tt
  | e :: rest => do write fp (render e) then write_each fp render rest
  end.

Definition append_dataset_lines (fp session_id fmt : pystr)
    (entries : list Entry) : M unit :=
  if decide (fmt = lit "csv") then
    let* existed := exists_ fp in
    do open_append fp then
    do (if negb existed then write fp lines_header else ret tt) then
    write_each fp (csv_line session_id) entries
  else
    do open_append fp then
    write_each fp (json_line session_id) entries.

Definition dialog_header : pystr :=
  csv_row [lit "session_id"; lit "saved_at"; lit "dialog_json"].

Definition append_dataset_dialog (env : Env) (fp session_id fmt : pystr)
    (dialog_list : list json) : M unit :=
  let* saved_at := _now_str env in
  let payload := JObj [(lit "session_id", JStr session_id);
                       (lit "dialog", JArr dialog_list);
                       (lit "saved_at", JStr saved_at)] in
  if decide (fmt = lit "csv") then
    let* existed := exists_ fp in
    do open_append fp then
    do (if negb existed then write fp dialog_header else ret tt) then
    write fp (csv_row [session_id; saved_at; dumps (JArr dialog_list)])
  else
    do open_append fp then
    write fp (dumps payload ++ [10%N]).

(** ** Brainstorm prompt *)

Definition brainstorm_guidance : pystr :=
  concat
    [ lit "You are in a multi-bot brainstorming. Improve and refine ideas; ";
      lit "don't repeat verbatim. Be concise but thorough. If code is needed, ";
      lit "include it. Cite which bot you're responding to when relevant. ";
      [8218; 246; 244; 212; 8719; 232]%N;
      lit " Coding Guidelines:- Never resend the entire file unless explicitly ";
      lit "asked.  - Always suggest localized changes:  ";
      [8218; 196; 162]%N;
      lit " ";
      [8218; 196; 250]%N;
      lit "Insert below line 120 ";
      [8218; 196; 182; 8218; 196; 249]%N;
      lit "    ";
      [8218; 196; 162]%N;
      lit " ";
      [8218; 196; 250]%N;
      lit "Replace line 85 with ";
      [8218; 196; 182; 8218; 196; 249]%N;
      lit "    ";
      [8218; 196; 162]%N;
      lit " ";
      [8218; 196; 250]%N;
      lit "Add this block before function main()";
      [8218; 196; 249]%N;
      lit "  - If line numbers may differ, use keyword anchors:    ";
      [8218; 196; 162]%N;
      lit " ";
      [8218; 196; 250]%N;
      lit "Insert after the line containing `def clear_history`";
      [8218; 196; 249]%N;
      lit ".  - If multiple edits are required, list them step by step. ";
      lit " - Keep diffs small, precise, and easy to apply.  ";
      [63743; 252; 233; 216]%N;
      lit " Goal:- Collaborate constructively.  - Avoid duplication, instead ";
      lit "build on each other's points.  - Keep memory efficient: no unnecessary ";
      lit "repetition.  " ].

(** An element of [messages]; either key may be missing. *)
Record Message := mkMessage {
  m_provider : option pystr;
  m_reply : option pystr
}.

(** [messages[-12:]] *)
Definition last12 {A} (l : list A) : list A := drop (length l - 12) l.

Fixpoint prompt_lines (messages : list Message) : list pystr :=
  match messages with
  | [] => []
  | m :: rest =>
      let prov := default (lit "unknown") (m_provider m) in
      let txt := strip (default [] (m_reply m)) in
      if negb (truthy txt) then prompt_lines rest
      else (prov ++ lit ": " ++ txt) :: prompt_lines rest
  end.

Definition build_brainstorm_prompt (messages : list Message) : pystr :=
  let lines := prompt_lines (last12 messages) in
  brainstorm_guidance ++ [10; 10]%N ++ lit "Context so far:" ++ [10%N]
  ++ join [10%N] lines ++ [10; 10]%N ++ lit "Your improved contribution:".

(** ** Flask handlers *)

Inductive Body : Type :=
| JsonBody (j : json)
| TextBody (s : pystr).

Record Response := mkResponse { body : Body; status : nat }.

(** [jsonify(obj)], and [jsonify(obj), code]. *)
Definition jsonify (j : json) : Response := mkResponse (JsonBody j) 200.
Definition jsonify_status (j : json) (code : nat) : Response :=
  mkResponse (JsonBody j) code.

Definition reply_members (r : ProviderReply) : list (pystr * json) :=
  [(lit "provider", JStr (provider r));
   (lit "reply", JStr (reply r));
   (lit "timestamp", JStr (timestamp r))].

Definition history_json (h : HistoryItem) : json :=
  JObj [(lit "provider", JStr (h_provider h));
        (lit "message", JStr (h_message h));
        (lit "timestamp", JStr (h_timestamp h))].

Definition entry_json (e : Entry) : json :=
  JObj ([(lit "provider", JStr (e_provider e));
         (lit "message", JStr (e_message e));
         (lit "timestamp", JStr (e_timestamp e))]
        ++ match e_type e with
           | Some t => [(lit "type", JStr t)]
           | None => []
           end).

(** [**({"saved_to": saved} if saved else {})] *)
Definition saved_members (saved : option pystr) : list (pystr * json) :=
  match saved with
  | Some fp => if truthy fp then [(lit "saved_to", JStr fp)] else []
  | None => []
  end.

(** GET /history *)
Definition history (args_session_id : option pystr) : M Response :=
  let session_id := strip (default [] args_session_id) in
  if negb (truthy session_id) then
    ret (mkResponse (TextBody (lit "session_id required")) 400)
  else
    let* w := get_world in
    let* hist := (if USE_DB w then fetch_history session_id 500 else ret []) in
    ret (jsonify (JObj [(lit "history", JArr (map history_json hist))])).

(** The loop that records the replies and builds [entries]. *)
Fixpoint save_replies (env : Env) (session_id mtype : pystr)
    (replies : list ProviderReply) : M (list Entry) :=
  match replies with
  | [] => ret []
  | item :: rest =>
      let provider_name := provider item in
      let msg := reply item in
      let ts := timestamp item in
      do save_to_db env session_id provider_name msg mtype then
      let* entries := save_replies env session_id mtype rest in
      ret (mkEntry provider_name msg ts (Some mtype) :: entries)
  end.

(** The optional dataset save, the same block in /ask and /brainstorm. *)
Definition dataset_save (env : Env) (save_dataset : bool)
    (filename save_format save_shape session_id : pystr)
    (entries : list Entry) : M (option pystr) :=
  if save_dataset then
    let* fp := dataset_path env filename save_format in
    do (if decide (save_shape = lit "dialog") then
          let* w := get_world in
          let* dialog :=
            (if USE_DB w then
               let* h := fetch_history session_id 500 in
               ret (map history_json h)
             else ret (map entry_json entries)) in
          append_dataset_dialog env fp session_id save_format dialog
        else append_dataset_lines fp session_id save_format entries) then
    ret (Some fp)
  else ret None.

(** The form and files of a POST /ask request; [None] is a missing field. *)
Record AskRequest := mkAsk {
  form_session_id : option pystr;
  form_provider : option pystr;
  form_query : option pystr;
  form_save_dataset : option pystr;
  form_save_format : option pystr;
  form_save_shape : option pystr;
  form_filename : option pystr;
  has_file : bool
}.

Definition ask_guidance : pystr :=
  lit "Please answer clearly. If code is needed include it. Avoid repeating earlier content verbatim. "
  ++ lit "If you refer to another bot, name it. Keep replies focused.".

Definition invalid_provider (provider : pystr) : Response :=
  jsonify_status
    (JObj [(lit "error", JStr (lit "invalid provider '" ++ provider ++ lit "'"))])
    200.

(** The prompt of /ask: the query followed by the guidance, or the empty
    query as it is. *)
Definition ask_prompt (query : pystr) : pystr :=
  if negb (truthy query) then query
  else query ++ [10; 10]%N ++ ask_guidance.

(** The part of /ask after the early returns, once [providers] is known. *)
Definition answer (env : Env) (session_id query : pystr) (save_dataset : bool)
    (filename save_format save_shape : pystr) (providers : list pystr)
    : M Response :=
  (* Make a concise guidance to avoid flooding *)
  let prompt := ask_prompt query in
  (* Parallel ask *)
  let* replies := ask_providers_parallel env providers prompt in
  (* Save replies *)
  let* entries := save_replies env session_id (lit "bot") replies in
  (* Dataset save (optional) *)
  let* saved :=
    dataset_save env save_dataset filename save_format save_shape
                 session_id entries in
  (* If single provider, flatten *)
  match replies with
  | [r] => ret (jsonify (JObj (reply_members r ++ saved_members saved)))
  | _ =>
      ret (jsonify (JObj ((lit "multi", JArr (map (fun r => JObj (reply_members r)) replies))
                          :: saved_members saved)))
  end.

(** POST /ask *)
Definition ask (env : Env) (request : AskRequest) : M Response :=
  let session_id := strip (opt_or (form_session_id request) (lit "default")) in
  let provider := strip (opt_or (form_provider request) (lit "phind")) in
  let query := strip (opt_or (form_query request) []) in
  let save_dataset :=
    bool_decide (strip (default (lit "0") (form_save_dataset request))
                 ∈ [lit "1"; lit "true"; lit "True"; lit "yes"; lit "on"]) in
  let save_format := lower (strip (opt_or (form_save_format request) (lit "csv"))) in
  let save_shape := lower (strip (opt_or (form_save_shape request) (lit "lines"))) in
  let filename := strip (opt_or (form_filename request) []) in
  if negb (truthy query) && negb (has_file request) then
    ret (jsonify_status (JObj [(lit "error", JStr (lit "empty query"))]) 200)
  else
    (* record user message *)
    do (if truthy query
        then save_to_db env session_id (lit "user") query (lit "user")
        else ret tt) then
    (* Provider handling *)
    if decide (provider = lit "group") then
      answer env session_id query save_dataset filename save_format save_shape
             GROUP_LIST
    else if negb (bool_decide (provider ∈ VALID_PROVIDERS)) then
      ret (invalid_provider provider)
    else
      answer env session_id query save_dataset filename save_format save_shape
             [provider].

(** POST /clear-history *)
Definition clear_history (form_session_id : option pystr) : M Response :=
  try_except
    (do cursor then
     do execute (sql_delete form_session_id) then
     ret (jsonify (JObj [(lit "message", JStr (lit "History cleared successfully"))])))
    (fun e => ret (jsonify_status (JObj [(lit "error", JStr (exc_str e))]) 500)).

(** The JSON body of a POST /brainstorm request; [None] is a missing key. *)
Record BrainstormRequest := mkBrainstorm {
  data_session_id : option pystr;
  data_providers : option (list pystr);
  data_messages : option (list Message);
  data_save_dataset : bool;
  data_save_format : option pystr;
  data_save_shape : option pystr;
  data_filename : option pystr
}.

(** The "Resolve providers" block of /brainstorm. *)
Definition resolve_providers (requested : option (list pystr)) : list pystr :=
  let providers :=
    match requested with
    | Some (p :: ps) => p :: ps
    | _ => [lit "group"]
    end in
  if bool_decide (providers = [lit "group"])
     || (length providers =? 1) && bool_decide (providers !! 0 = Some (lit "group"))
  then GROUP_LIST
  else
    let providers := filter (fun p => p ∈ VALID_PROVIDERS) providers in
    if bool_decide (providers = []) then GROUP_LIST else providers.

(** POST /brainstorm *)
Definition brainstorm (env : Env) (data : BrainstormRequest) : M Response :=
  let session_id := strip (opt_or (data_session_id data) (lit "default")) in
  let messages := default [] (data_messages data) in
  let save_dataset := data_save_dataset data in
  let save_format := lower (strip (opt_or (data_save_format data) (lit "csv"))) in
  let save_shape := lower (strip (opt_or (data_save_shape data) (lit "lines"))) in
  let filename := strip (opt_or (data_filename data) []) in
  let providers := resolve_providers (data_providers data) in
  let prompt := build_brainstorm_prompt messages in
  let* replies := ask_providers_parallel env providers prompt in
  let* entries := save_replies env session_id (lit "brainstorm") replies in
  let* saved :=
    dataset_save env save_dataset filename save_format save_shape
                 session_id entries in
  ret (jsonify (JObj ((lit "multi", JArr (map (fun r => JObj (reply_members r)) replies))
                      :: saved_members saved))).

(** ** Start-up *)

(** The module's start-up: the connection attempt and the [CREATE TABLE]
    decide the globals [USE_DB] and [db_conn]. *)
Definition startup (connect : outcome Database)
    (fs : gmap (list N) (list N)) : World :=
  let disabled (e : PyException) :=
    mkWorld false None fs [lit "[DB] Disabled ( " ++ exc_str e ++ lit " )"] [] 0 in
  match connect with
  | Raise e => disabled e
  | Ret db =>
      match db_fault db with
      | Some e => disabled e
      | None => mkWorld true (Some db) fs [lit "[DB] Connected."] [] 0
      end
  end.

(** ** Notions used in the statements *)

(** [needle in hay] for strings. *)
Definition infix_of (needle hay : pystr) : Prop :=
  exists pre post, hay = pre ++ needle ++ post.

(** Two process outcomes that the invokers cannot tell apart: the same
    trimmed streams on completion, or the same exception text. *)
Definition same_outcome (a b : outcome CompletedProcess) : Prop :=
  match a, b with
  | Ret r1, Ret r2 =>
      strip (stdout r1) = strip (stdout r2)
      /\ strip (stderr r1) = strip (stderr r2)
  | Raise e1, Raise e2 => exc_str e1 = exc_str e2
  | _, _ => False
  end.

(** A sample deployment: [sky] answers on stdout but exits with status 1,
    [phind] only complains on stderr, [kimi] prints nothing, and every
    other provider runs into the timeout. *)
Definition sample_run (cmd : list pystr) (timeout : N)
    : outcome CompletedProcess :=
  match cmd !! 3 with
  | Some p =>
      if decide (p = lit "sky") then
        Ret (mkProc 1 ([32; 10]%N ++ lit "hi there" ++ [10%N]) (lit "warning: slow"))
      else if decide (p = lit "phind") then
        Ret (mkProc 2 [10%N] (lit "  connection refused" ++ [10%N]))
      else if decide (p = lit "kimi") then
        Ret (mkProc 0 [] [32%N])
      else
        Raise (mkExc (lit "TimeoutExpired") (lit "Command timed out after 75 seconds"))
  | None => Raise (mkExc (lit "ValueError") (lit "bad command"))
  end.

Definition sample_env : Env :=
  mkEnv (lit "tgpt") 75 (lit "/var/www/htdocs/datasets")
        sample_run sample_run
        (fun n => lit "2025-01-01 00:00:0" ++ str_of_N (N.of_nat n))
        (fun n => 1735689600 + N.of_nat n)%N
        [4; 2; 0].

Definition connection_refused : PyException :=
  mkExc (lit "OperationalError") (lit "(2003, 'Can not connect to MySQL server')").

(** The world after a start-up that reached the database, and after one
    that did not. *)
Definition world_on : World := startup (Ret (mkDb [] None)) ∅.
Definition world_off : World := startup (Raise connection_refused) ∅.

(** The replies of a fan-out whose first timestamp is the [n]-th reading
    of the clock. *)
Fixpoint stamped (env : Env) (n : nat) (pairs : list (pystr * outcome pystr))
    : list ProviderReply :=
  match pairs with
  | [] => []
  | (p, r) :: rest => mkReply p (reply_text p r) (clock env n) :: stamped env (S n) rest
  end.

(** The exception a statement sent over the connection raises in this
    world, if any: there is no connection, or the server rejects it. *)
Definition storage_error (w : World) : option PyException :=
  match db_conn w with
  | None => Some (none_has_no "cursor")
  | Some db => db_fault db
  end.

(** [d.get(key)] on the members of a JSON object. *)
Fixpoint member (key : pystr) (members : list (pystr * json)) : option json :=
  match members with
  | [] => None
  | (k, v) :: rest => if bool_decide (k = key) then Some v else member key rest
  end.

(** The "error" member of a response, which marks a rejection. *)
Definition error_member (r : Response) : option json :=
  match body r with
  | JsonBody (JObj members) => member (lit "error") members
  | _ => None
  end.

(** The provider and the reply text of a reply object. *)
Definition reply_content (j : json) : option (pystr * pystr) :=
  match j with
  | JObj members =>
      match member (lit "provider") members, member (lit "reply") members with
      | Some (JStr p), Some (JStr r) => Some (p, r)
      | _, _ => None
      end
  | _ => None
  end.

(** What a response says the providers replied: the reply objects under
    "multi", or the response itself when it is a single reply. *)
Definition replies_of (r : Response) : list (pystr * pystr) :=
  match body r with
  | JsonBody (JObj members) =>
      match member (lit "multi") members with
      | Some (JArr items) => omap reply_content items
      | _ => option_list (reply_content (JObj members))
      end
  | _ => []
  end.

(** The records one export of [entries] adds, and the header it writes
    before them. *)
Definition batch (session_id fmt : pystr) (entries : list Entry) : pystr :=
  concat (map (if decide (fmt = lit "csv") then csv_line session_id
               else json_line session_id) entries).

Definition header_if_new (fmt : pystr) (prior : option pystr) : pystr :=
  if decide (fmt = lit "csv") then
    match prior with
    | None => lines_header
    | Some _ => []
    end
  else [].

(** A computation that never raises, and one that launches no process. *)
Definition returns {A} (m : M A) : Prop :=
  forall w, exists a, (m w).1 = Ret a.

Definition quiet {A} (m : M A) : Prop :=
  forall w, launched (m w).2 = launched w.

(** The fields of an /ask request as the handler reads them. *)
Definition req_session_id (request : AskRequest) : pystr :=
  strip (opt_or (form_session_id request) (lit "default")).
Definition req_provider (request : AskRequest) : pystr :=
  strip (opt_or (form_provider request) (lit "phind")).
Definition req_query (request : AskRequest) : pystr :=
  strip (opt_or (form_query request) []).

(** The response of /ask for the gathered replies. *)
Definition ask_response (replies : list ProviderReply) (saved : option pystr)
    : Response :=
  match replies with
  | [r] => jsonify (JObj (reply_members r ++ saved_members saved))
  | _ =>
      jsonify (JObj ((lit "multi", JArr (map (fun r => JObj (reply_members r)) replies))
                     :: saved_members saved))
  end.

(** The provider and the text of each reply. *)
Definition contents (replies : list ProviderReply) : list (pystr * pystr) :=
  map (fun r => (provider r, reply r)) replies.

(** The same deployment with the pool's workers running in another order. *)
Definition with_finish_order (order : list nat) (env : Env) : Env :=
  mkEnv (TGPT_BIN env) (TGPT_TIMEOUT env) (DATASET_DIR env) (subprocess_run env)
        (async_exec env) (clock env) (epoch env) order.

(** Sample requests. *)
Definition ask_sky : AskRequest :=
  mkAsk (Some (lit "s1")) (Some (lit "sky")) (Some (lit " hi ")) None None None
        None false.

Definition ask_bogus : AskRequest :=
  mkAsk (Some (lit "s1")) (Some (lit "bogus")) (Some (lit "hi")) None None None
        None false.

Definition brainstorm_bogus : BrainstormRequest :=
  mkBrainstorm (Some (lit "s1")) (Some [lit "bogus"]) None false None None None.

(** ** Notions used in the further properties *)

(** The tasks whose future is still pending. *)
Fixpoint pending {X} (tasks : list pystr) (slots : list (option X)) : list pystr :=
  match tasks, slots with
  | p :: ts, s :: ss =>
      match s with
      | None => p :: pending ts ss
      | Some _ => pending ts ss
      end
  | _, _ => []
  end.

(** The history items of a session in a table, oldest first. *)
Definition session_items (rows : list Row) (session_id : pystr) : list HistoryItem :=
  map (fun r => mkHist (row_provider r) (row_message r) (row_timestamp r))
      (filter (fun r => row_session_id r = session_id) rows).

(** The answer of /clear-history when the statement went through. *)
Definition history_cleared : Response :=
  jsonify (JObj [(lit "message", JStr (lit "History cleared successfully"))]).

(** The extension [dataset_path] gives to a format. *)
Definition dataset_ext (fmt : pystr) : pystr :=
  if decide (fmt = lit "csv") then lit ".csv" else lit ".json".

(** The header and the record one export of a dialog writes. *)
Definition dialog_header_if_new (fmt : pystr) (prior : option pystr) : pystr :=
  if decide (fmt = lit "csv") then
    match prior with
    | None => dialog_header
    | Some _ => []
    end
  else [].

Definition dialog_record (fmt session_id saved_at : pystr) (dialog_list : list json)
    : pystr :=
  if decide (fmt = lit "csv") then
    csv_row [session_id; saved_at; dumps (JArr dialog_list)]
  else
    dumps (JObj [(lit "session_id", JStr session_id);
                 (lit "dialog", JArr dialog_list);
                 (lit "saved_at", JStr saved_at)]) ++ [10%N].

(** Induction on JSON values, through the lists of items and members. *)
Fixpoint json_induction (P : json -> Prop)
    (HNull : P JNull) (HStr : forall s, P (JStr s))
    (HArr : forall items, Forall P items -> P (JArr items))
    (HObj : forall members, Forall (fun kv => P kv.2) members -> P (JObj members))
    (j : json) {struct j} : P j :=
  match j with
  | JNull => HNull
  | JStr s => HStr s
  | JArr items =>
      HArr items
        ((fix go (l : list json) : Forall P l :=
            match l with
            | [] => @List.Forall_nil _ P
            | x :: r =>
                @List.Forall_cons _ P x r
                  (json_induction P HNull HStr HArr HObj x) (go r)
            end) items)
  | JObj members =>
      HObj members
        ((fix go (l : list (pystr * json)) : Forall (fun kv => P kv.2) l :=
            match l with
            | [] => @List.Forall_nil _ (fun kv => P kv.2)
            | kv :: r =>
                @List.Forall_cons _ (fun kv => P kv.2) kv r
                  (json_induction P HNull HStr HArr HObj kv.2) (go r)
            end) members)
  end.

(** What a row says, without its time stamp. *)
Definition row_key (r : Row) : pystr * pystr * pystr * pystr :=
  (row_session_id r, row_provider r, row_message r, row_type r).

(** A computation that leaves an observation of the world as it was. *)
Definition preserves {X A} (f : World -> X) (m : M A) : Prop :=
  forall w, f (m w).2 = f w.

(** The providers an /ask request is for. *)
Definition asked_providers (request : AskRequest) : list pystr :=
  if decide (req_provider request = lit "group") then GROUP_LIST
  else [req_provider request].

(** What a history item says, without its time stamp. *)
Definition item_key (h : HistoryItem) : pystr * pystr :=
  (h_provider h, h_message h).

(** The answers of /history. *)
Definition session_id_required : Response :=
  mkResponse (TextBody (lit "session_id required")) 400.

Definition history_response (items : list HistoryItem) : Response :=
  jsonify (JObj [(lit "history", JArr (map history_json items))]).

(** ** The IRC bridge ([irc-AI-Bot.py])

    The bridge is a process of its own: it keeps a [memory] table, posts
    every message it hears to /ask and relays the reply to IRC. *)

Module IrcBot.

(** Max line length for IRC *)
Definition IRC_MAX_LINE : nat := 400.

(** The bridge's database: the [memory] table in insertion order, and
    whether the server currently rejects statements. *)
Record Memory := mkMemory {
  memory : list Row;
  memory_fault : option PyException
}.

(** The form posted to the API. *)
Record Payload := mkPayload {
  p_session_id : pystr;
  p_provider : pystr;
  p_query : pystr
}.

(** The body of an API response, as [r.json()] gives it: a JSON object
    whose "reply" and "message", when present, are strings or null. *)
Record ApiData := mkData {
  d_reply : option pystr;
  d_message : option pystr
}.

(** A response of [requests.post]; [r.json()] may raise. *)
Record HttpReply := mkHttp {
  status_code : nat;
  text : pystr;
  json_body : outcome ApiData
}.

(** Everything outside the bridge. *)
Record BotEnv := mkBotEnv {
  (** [datetime.datetime.now().strftime(..)] at the n-th reading *)
  bot_clock : nat -> pystr;
  (** [requests.post(API_URL, data=payload, timeout=60)] *)
  post : Payload -> outcome HttpReply;
  (** how [print] shows the payload dict *)
  repr_payload : Payload -> pystr;
  (** the exception [c.privmsg(target, text)] raises, if the connection
      refuses the message *)
  privmsg_error : pystr -> pystr -> option PyException
}.

Record BotWorld := mkBot {
  db_conn : option Memory;
  sent : list (pystr * pystr);
  printed : list pystr;
  posted : list Payload;
  ticks : nat
}.

(** Computations of the bridge. *)
Definition B (A : Type) : Type := BotWorld -> outcome A * BotWorld.

Definition ret {A} (a : A) : B A := fun w => (Ret a, w).
Definition bind {A C} (m : B A) (k : A -> B C) : B C :=
  fun w =>
    match m w with
    | (Ret a, w') => k a w'
    | (Raise e, w') => (Raise e, w')
    end.
Definition try_except {A} (body : B A) (handler : PyException -> B A) : B A :=
  fun w =>
    match body w with
    | (Ret a, w') => (Ret a, w')
    | (Raise e, w') => handler e w'
    end.

Declare Scope bot_scope.
Notation "'let*' x ':=' c 'in' k" := (bind c (fun x => k))
  (at level 10, x pattern, c at level 100, k at level 200) : bot_scope.
Notation "'do' c 'then' k" := (bind c (fun _ => k))
  (at level 10, c at level 100, k at level 200) : bot_scope.
Local Open Scope bot_scope.

Definition print (line : pystr) : B unit :=
  fun w => (Ret tt, mkBot (db_conn w) (sent w) (printed w ++ [line]) (posted w)
                          (ticks w)).

Definition now_str (env : BotEnv) : B pystr :=
  fun w => (Ret (bot_clock env (ticks w)),
            mkBot (db_conn w) (sent w) (printed w) (posted w) (S (ticks w))).

(** [c.privmsg(target, text)] *)
Definition privmsg (env : BotEnv) (target text : pystr) : B unit :=
  fun w =>
    match privmsg_error env target text with
    | Some e => (Raise e, w)
    | None => (Ret tt, mkBot (db_conn w) (sent w ++ [(target, text)]) (printed w)
                             (posted w) (ticks w))
    end.

(** [requests.post(API_URL, data=payload, timeout=60)] *)
Definition requests_post (env : BotEnv) (payload : Payload) : B HttpReply :=
  fun w => (post env payload,
            mkBot (db_conn w) (sent w) (printed w) (posted w ++ [payload])
                  (ticks w)).

(** [cur.execute(stmt)] under [with db_conn.cursor() as cur] *)
Definition execute {A} (stmt : list Row -> A * list Row) : B A :=
  fun w =>
    match db_conn w with
    | None => (Raise (none_has_no "cursor"), w)
    | Some db =>
        match memory_fault db with
        | Some e => (Raise e, w)
        | None =>
            let '(a, rows) := stmt (memory db) in
            (Ret a, mkBot (Some (mkMemory rows None)) (sent w) (printed w)
                          (posted w) (ticks w))
        end
    end.

(** [SELECT provider, message FROM memory WHERE session_id=%s
     ORDER BY id DESC LIMIT %s] *)
Definition sql_recall (session_id : pystr) (limit : nat) (rows : list Row)
    : list Row * list Row :=
  (take limit (rev (filter (fun r => row_session_id r = session_id) rows)), rows).

Definition save_fact (env : BotEnv) (session_id provider message mtype : pystr)
    : B unit :=
  fun w =>
    match db_conn w with
    | None => (Ret tt, w)
    | Some _ =>
        try_except
          (let* now := now_str env in
           execute (sql_insert (mkRow session_id provider message mtype now)))
          (fun e => print (lit "[DB] save_fact error: " ++ exc_str e)) w
    end.

(** The dict [{"provider": .., "message": ..}]. *)
Record Fact := mkFact { fact_provider : pystr; fact_message : pystr }.

Definition recall_facts (session_id : pystr) (limit : nat) : B (list Fact) :=
  fun w =>
    match db_conn w with
    | None => (Ret [], w)
    | Some _ =>
        try_except
          (let* rows := execute (sql_recall session_id limit) in
           ret (map (fun r => mkFact (row_provider r) (row_message r)) rows))
          (fun e =>
             do print (lit "[DB] recall_fact error: " ++ exc_str e) then
             ret []) w
    end.

(** [s.split(sep)] for a single character. *)
Fixpoint split_on (sep : N) (s : pystr) : list pystr :=
  match s with
  | [] => [[]]
  | c :: r =>
      if (c =? sep)%N then [] :: split_on sep r
      else
        match split_on sep r with
        | cur :: rest => (c :: cur) :: rest
        | [] => [[c]]
        end
  end.

(** [range(0, n, step)] *)
Definition range_step (n step : nat) : list nat :=
  map (fun k => k * step) (seq 0 ((n + step - 1) / step)).

(** The inner loop: one message per chunk of the line. *)
Fixpoint send_chunks (env : BotEnv) (target line : pystr) (starts : list nat)
    : B unit :=
  match starts with
  | [] => ret tt
  | chunk_start :: rest =>
      let chunk := take IRC_MAX_LINE (drop chunk_start line) in
      do privmsg env target chunk then
      send_chunks env target line rest
  end.

(** The outer loop over the lines of the reply. *)
Fixpoint send_lines (env : BotEnv) (target : pystr) (lines : list pystr)
    : B unit :=
  match lines with
  | [] => ret tt
  | line :: rest =>
      do send_chunks env target line (range_step (length line) IRC_MAX_LINE) then
      send_lines env target rest
  end.

(** f"{f['provider']}: {f['message']}" *)
Definition fact_line (f : Fact) : pystr :=
  fact_provider f ++ lit ": " ++ fact_message f.

(** What [handle_message] does with the response of the API. *)
Definition relay (env : BotEnv) (target nick : pystr) (r : HttpReply) : B unit :=
  if status_code r =? 200 then
    let* data := (fun w => (json_body r, w)) in
    let reply := opt_or (d_reply data) (opt_or (d_message data) []) in
    if truthy reply then
      do save_fact env nick (lit "sky") reply (lit "bot") then
      (* Split multi-line messages to avoid carriage return issues *)
      let lines := split_on 10 (filter (fun c => c <> 13%N) reply) in
      send_lines env target lines
    else privmsg env target (lit "No reply from API.")
  else
    privmsg env target (lit "API error " ++ str_of_N (N.of_nat (status_code r))).

Definition handle_message (env : BotEnv) (target nick user_msg : pystr) : B unit :=
  try_except
    ((* Recall memory and append to message if needed *)
     let* past_facts := recall_facts nick 50 in
     let memory_context := join [10%N] (map fact_line (last12 past_facts)) in
     let full_query :=
       if truthy memory_context
       then user_msg ++ [10; 10]%N ++ lit "Memory context:" ++ [10%N]
            ++ memory_context
       else user_msg in
     let payload := mkPayload nick (lit "sky") full_query in
     do print (lit "[DEBUG] Sending payload to API: " ++ repr_payload env payload) then
     let* r := requests_post env payload in
     do print (lit "[DEBUG] API status: " ++ str_of_N (N.of_nat (status_code r))) then
     do print (lit "[DEBUG] API raw response: " ++ text r) then
     relay env target nick r)
    (fun ex =>
       do print (lit "[DEBUG] Exception: " ++ exc_str ex) then
       privmsg env target (lit "Error: " ++ exc_str ex)).

(** An IRC event: its first argument, its target and the sender's nick. *)
Record Event := mkEvent {
  argument0 : pystr;
  event_target : pystr;
  source_nick : pystr
}.

Definition on_pubmsg (env : BotEnv) (e : Event) : B unit :=
  let user_msg := strip (argument0 e) in
  do print (lit "[DEBUG] Public message from " ++ source_nick e ++ lit ": "
            ++ user_msg) then
  handle_message env (event_target e) (source_nick e) user_msg.

Definition on_privmsg (env : BotEnv) (e : Event) : B unit :=
  let user_msg := strip (argument0 e) in
  do print (lit "[DEBUG] Private message from " ++ source_nick e ++ lit ": "
            ++ user_msg) then
  handle_message env (source_nick e) (source_nick e) user_msg.

(** The messages the relay loop sends for a reply. *)
Definition chunk_line (line : pystr) : list pystr :=
  map (fun chunk_start => take IRC_MAX_LINE (drop chunk_start line))
      (range_step (length line) IRC_MAX_LINE).

Definition reply_chunks (reply : pystr) : list pystr :=
  concat (map chunk_line (split_on 10 (filter (fun c => c <> 13%N) reply))).

(** A connection that accepts every message. *)
Definition accepting (env : BotEnv) : Prop :=
  forall target text, privmsg_error env target text = None.

(** The facts of a nick in the table, oldest first. *)
Definition facts_of (rows : list Row) (nick : pystr) : list Fact :=
  map (fun r => mkFact (row_provider r) (row_message r))
      (filter (fun r => row_session_id r = nick) rows).

(** What [recall_facts] finds for a nick: nothing without a working
    database, else the newest [limit] facts, newest first. *)
Definition recalled (w : BotWorld) (nick : pystr) (limit : nat) : list Fact :=
  match db_conn w with
  | Some db =>
      match memory_fault db with
      | None => take limit (rev (facts_of (memory db) nick))
      | Some _ => []
      end
  | None => []
  end.

(** The query the bridge posts for a message and the recalled facts. *)
Definition query_with (user_msg : pystr) (window : list Fact) : pystr :=
  match window with
  | [] => user_msg
  | _ :: _ =>
      user_msg ++ [10; 10]%N ++ lit "Memory context:" ++ [10%N]
      ++ join [10%N] (map fact_line window)
  end.

(** A sample bridge: the API answers every post with a two-line reply. *)
Definition sample_bot_env : BotEnv :=
  mkBotEnv (fun n => lit "2025-01-01 00:00:0" ++ str_of_N (N.of_nat n))
           (fun _ => Ret (mkHttp 200 (lit "{..}")
                            (Ret (mkData (Some (lit "hello" ++ [13; 10]%N ++ lit "world"))
                                         None))))
           (fun p => lit "{..}")
           (fun _ _ => None).

Definition sample_bot_world : BotWorld := mkBot (Some (mkMemory [] None)) [] [] [] 0.

End IrcBot.

(** ** Notions about the bridge *)

(** The payload [handle_message] posts for a message, given the world it
    starts in. *)
Definition payload_of (w : IrcBot.BotWorld) (nick user_msg : pystr)
    : IrcBot.Payload :=
  IrcBot.mkPayload nick (lit "sky")
    (IrcBot.query_with user_msg (last12 (IrcBot.recalled w nick 50))).

(** The reply the bridge reads off the body of a response. *)
Definition reply_of (data : IrcBot.ApiData) : pystr :=
  opt_or (IrcBot.d_reply data) (opt_or (IrcBot.d_message data) []).

(** A computation of the bridge that posts nothing. *)
Definition posts_nothing {A} (m : IrcBot.B A) : Prop :=
  forall w, IrcBot.posted (m w).2 = IrcBot.posted w.

(** A database in which "ann" has two facts and "bob" one. *)
Definition sample_memory : IrcBot.Memory :=
  IrcBot.mkMemory
    [mkRow (lit "ann") (lit "sky") (lit "first") (lit "bot") (lit "t0");
     mkRow (lit "bob") (lit "sky") (lit "other") (lit "bot") (lit "t1");
     mkRow (lit "ann") (lit "sky") (lit "second") (lit "bot") (lit "t2")]
    None.

(** ** The bridge and the relay together

    The form the bridge posts, as /ask receives it, and the response of
    /ask, as the bridge receives it. *)

(** The payload dict as the form of the request: three fields, no file. *)
Definition request_of (payload : IrcBot.Payload) : AskRequest :=
  mkAsk (Some (IrcBot.p_session_id payload)) (Some (IrcBot.p_provider payload))
        (Some (IrcBot.p_query payload)) None None None None false.

(** A string member of a JSON object; null and a missing key are [None]. *)
Definition text_member (key : pystr) (members : list (pystr * json))
    : option pystr :=
  match member key members with
  | Some (JStr s) => Some s
  | _ => None
  end.

(** [r.json()] on the body [jsonify] produced. *)
Definition data_of (r : Response) : IrcBot.ApiData :=
  match body r with
  | JsonBody (JObj members) =>
      IrcBot.mkData (text_member (lit "reply") members)
                    (text_member (lit "message") members)
  | _ => IrcBot.mkData None None
  end.

(** The response of the relay as [requests] hands it to the bridge. *)
Definition http_of (r : Response) : IrcBot.HttpReply :=
  IrcBot.mkHttp (status r)
    (match body r with
     | JsonBody j => dumps j
     | TextBody s => s
     end)
    (match body r with
     | JsonBody _ => Ret (data_of r)
     | TextBody _ => Raise (mkExc (lit "JSONDecodeError") (lit "Expecting value"))
     end).

(** The post of the bridge as /ask of a deployment serves it. *)
Definition served_by_ask (env : Env) (w : World) (payload : IrcBot.Payload)
    : outcome IrcBot.HttpReply :=
  match (ask env (request_of payload) w).1 with
  | Ret r => Ret (http_of r)
  | Raise e => Raise e
  end.

(** A bridge whose posts are served by /ask of the sample deployment. *)
Definition bridged_env : IrcBot.BotEnv :=
  IrcBot.mkBotEnv
    (fun n => lit "2025-01-01 00:00:0" ++ str_of_N (N.of_nat n))
    (served_by_ask sample_env world_on)
    (fun p => lit "{..}")
    (fun _ _ => None).

(** * Properties *)

(** Projections of an updated world, without touching map lookups. *)
Ltac world_simpl :=
  cbn [files USE_DB db_conn printed launched ticks set_files set_db set_printed
       set_launched set_ticks fst snd default from_option negb andb orb].

(** ** Strings *)

Lemma py_or_empty (s : pystr) : py_or s [] = s.
Proof. by destruct s. Qed.

Lemma truthy_false (s : pystr) : truthy s = false <-> s = [].
Proof. destruct s; simpl; split; congruence. Qed.

Lemma truthy_true (s : pystr) : truthy s = true <-> s <> [].
Proof. destruct s; simpl; split; congruence. Qed.

(** ** The backend invoker *)

Section Invoker.
Variable env : Env.
Variables provider prompt : pystr.

Let cmd := tgpt_cmd env provider prompt.
Let result := subprocess_run env cmd (TGPT_TIMEOUT env).

(** Every call launches exactly one process and changes nothing else. *)
Lemma run_tgpt_blocking_world w :
  (run_tgpt_blocking env provider prompt w).2
  = set_launched (launched w ++ [cmd]) w.
Proof.
  unfold run_tgpt_blocking, try_except, bind, launch, ret. fold cmd result.
  destruct result as [res|e]; simpl; [|done].
  by destruct (truthy (strip (py_or (stdout res) []))); simpl.
Qed.

(** The reply does not depend on the world the call runs in. *)
Lemma run_tgpt_blocking_value w w' :
  (run_tgpt_blocking env provider prompt w).1
  = (run_tgpt_blocking env provider prompt w').1.
Proof.
  unfold run_tgpt_blocking, try_except, bind, launch, ret. fold cmd result.
  destruct result as [res|e]; simpl; [|done].
  by destruct (truthy (strip (py_or (stdout res) []))); simpl.
Qed.

Lemma run_tgpt_blocking_returns w :
  exists s, (run_tgpt_blocking env provider prompt w).1 = Ret s.
Proof.
  unfold run_tgpt_blocking, try_except, bind, launch, ret. fold cmd result.
  destruct result as [res|e]; simpl; [|by eexists].
  destruct (truthy (strip (py_or (stdout res) []))); simpl; by eexists.
Qed.

Lemma run_tgpt_blocking_completed res w :
  result = Ret res ->
  (run_tgpt_blocking env provider prompt w).1
  = Ret (if truthy (strip (stdout res)) then strip (stdout res)
         else if truthy (strip (stderr res))
              then fmt_error provider (take 800 (strip (stderr res)))
              else fmt_no_output provider).
Proof.
  intros Hres.
  unfold run_tgpt_blocking, try_except, bind, launch, ret. fold cmd result.
  rewrite Hres, !py_or_empty. simpl.
  by destruct (truthy (strip (stdout res))); simpl.
Qed.

Lemma run_tgpt_blocking_raised e w :
  result = Raise e ->
  (run_tgpt_blocking env provider prompt w).1
  = Ret (fmt_error provider (exc_str e)).
Proof.
  intros Hres.
  unfold run_tgpt_blocking, try_except, bind, launch, ret. fold cmd result.
  by rewrite Hres.
Qed.
End Invoker.

(** C2: when the process completes within the timeout and its standard
    output is non-empty once trimmed, [run_tgpt_blocking] returns exactly the
    trimmed standard output, whatever the standard error and the exit code
    of the process are. *)
Theorem run_tgpt_blocking_output_wins env provider prompt res w :
  subprocess_run env (tgpt_cmd env provider prompt) (TGPT_TIMEOUT env) = Ret res ->
  strip (stdout res) <> [] ->
  (run_tgpt_blocking env provider prompt w).1 = Ret (strip (stdout res)).
Proof.
  intros Hres Hout.
  rewrite (run_tgpt_blocking_completed _ _ _ res) by done.
  apply truthy_true in Hout. by rewrite Hout.
Qed.

Lemma run_tgpt_blocking_output_wins_sky :
  (run_tgpt_blocking sample_env (lit "sky") (lit "hello") world_on).1
  = Ret (lit "hi there").
Proof.
  apply (run_tgpt_blocking_output_wins sample_env (lit "sky") (lit "hello")
           (mkProc 1 ([32; 10]%N ++ lit "hi there" ++ [10%N]) (lit "warning: slow"))
           world_on).
  - reflexivity.
  - vm_compute. discriminate.
Defined.

(** C3: when the process completes with a standard output that is empty
    once trimmed, the reply is "[X error] " followed by the first 800
    characters of the trimmed standard error if that is non-empty, and
    exactly "[X] (no output)" if both streams are empty. *)
Theorem run_tgpt_blocking_no_output env provider prompt res w :
  subprocess_run env (tgpt_cmd env provider prompt) (TGPT_TIMEOUT env) = Ret res ->
  strip (stdout res) = [] ->
  (strip (stderr res) <> [] ->
   (run_tgpt_blocking env provider prompt w).1
   = Ret (lit "[" ++ provider ++ lit " error] " ++ take 800 (strip (stderr res))))
  /\ (strip (stderr res) = [] ->
      (run_tgpt_blocking env provider prompt w).1
      = Ret (lit "[" ++ provider ++ lit "] (no output)")).
Proof.
  intros Hres Hout.
  rewrite (run_tgpt_blocking_completed _ _ _ res) by done.
  rewrite Hout. simpl. split; intros Herr.
  - apply truthy_true in Herr. by rewrite Herr.
  - by rewrite Herr.
Qed.

Lemma run_tgpt_blocking_no_output_phind :
  (run_tgpt_blocking sample_env (lit "phind") (lit "hello") world_on).1
  = Ret (lit "[phind error] connection refused").
Proof.
  apply (run_tgpt_blocking_no_output sample_env (lit "phind") (lit "hello")
           (mkProc 2 [10%N] (lit "  connection refused" ++ [10%N])) world_on).
  - reflexivity.
  - reflexivity.
  - vm_compute. discriminate.
Defined.

(** C4: [run_tgpt_blocking] always returns a string and never raises; when
    launching or waiting for the process raises (timeout, missing binary,
    permission denied), the reply is "[X error] " followed by the text of
    the exception, so it contains "[X error]". *)
Theorem run_tgpt_blocking_never_raises env provider prompt w :
  (exists s, (run_tgpt_blocking env provider prompt w).1 = Ret s)
  /\ forall e,
      subprocess_run env (tgpt_cmd env provider prompt) (TGPT_TIMEOUT env) = Raise e ->
      (run_tgpt_blocking env provider prompt w).1
      = Ret (lit "[" ++ provider ++ lit " error] " ++ exc_str e)
      /\ infix_of (lit "[" ++ provider ++ lit " error]")
                  (lit "[" ++ provider ++ lit " error] " ++ exc_str e).
Proof.
  split; [apply run_tgpt_blocking_returns|].
  intros e He. split; [by apply run_tgpt_blocking_raised|].
  exists [], (lit " " ++ exc_str e). simpl.
  change (lit " error] ") with (lit " error]" ++ lit " ").
  by rewrite <- !app_assoc.
Qed.

Lemma run_tgpt_blocking_never_raises_timeout :
  (run_tgpt_blocking sample_env (lit "koboldai") (lit "hello") world_on).1
  = Ret (lit "[koboldai error] Command timed out after 75 seconds").
Proof.
  apply (proj2 (run_tgpt_blocking_never_raises sample_env (lit "koboldai")
                  (lit "hello") world_on)
           (mkExc (lit "TimeoutExpired") (lit "Command timed out after 75 seconds"))).
  reflexivity.
Defined.



(** ** The worker pool *)

Lemma omap_id_filled {X} (g : pystr -> X) (slots : list (option X)) (l : list pystr) :
  length slots = length l ->
  (forall i p, l !! i = Some p -> slots !! i = Some (Some (g p))) ->
  omap id slots = map g l.
Proof.
  revert l. induction slots as [|s slots IH]; intros [|p l] Hlen Hall;
    simplify_eq/=; [done|].
  pose proof (Hall 0 p eq_refl) as H0. simplify_eq/=.
  f_equal. apply IH; [done|]. intros i q Hq. apply (Hall (S i) q Hq).
Qed.

Lemma omap_id_length {X} (slots : list (option X)) :
  (forall i, i < length slots -> exists r, slots !! i = Some (Some r)) ->
  length (omap id slots) = length slots.
Proof.
  induction slots as [|s slots IH]; intros Hall; [done|].
  destruct (Hall 0) as [r Hr]; [simpl; lia|]. simplify_eq/=.
  f_equal. apply IH. intros i Hi. apply (Hall (S i)). simpl. lia.
Qed.

Section PoolFacts.
Context {A : Type}.
Variable worker : pystr -> M A.
Variable tasks : list pystr.

Lemma drain_length order slots w :
  length (drain worker tasks order slots w).1 = length slots.
Proof.
  revert slots w. induction order as [|i rest IH]; intros slots w; simpl; [done|].
  destruct (tasks !! i) as [p|]; [|apply IH].
  destruct (slots !! i) as [[r|]|]; try apply IH.
  destruct (worker p w) as [r w']. by rewrite IH, length_insert.
Qed.

Lemma drain_app o1 o2 slots w :
  drain worker tasks (o1 ++ o2) slots w
  = drain worker tasks o2 (drain worker tasks o1 slots w).1
      (drain worker tasks o1 slots w).2.
Proof.
  revert slots w. induction o1 as [|i rest IH]; intros slots w; simpl; [done|].
  destruct (tasks !! i) as [p|]; [|apply IH].
  destruct (slots !! i) as [[r|]|]; try apply IH.
  destruct (worker p w) as [r w']. apply IH.
Qed.

(** A resolved future is never overwritten. *)
Lemma drain_keeps order slots w i r :
  slots !! i = Some (Some r) ->
  (drain worker tasks order slots w).1 !! i = Some (Some r).
Proof.
  revert slots w. induction order as [|j rest IH]; intros slots w Hi; simpl; [done|].
  destruct (tasks !! j) as [p|]; [|by apply IH].
  destruct (slots !! j) as [[r'|]|] eqn:Hj; try by apply IH.
  destruct (worker p w) as [r' w']. apply IH.
  rewrite list_lookup_insert_ne; [done|]. intros ->. congruence.
Qed.

(** Once every index had its turn, every future is resolved. *)
Lemma drain_seq_filled m k slots w i :
  length slots = length tasks ->
  k + m <= length tasks ->
  k <= i < k + m ->
  exists r, (drain worker tasks (seq k m) slots w).1 !! i = Some (Some r).
Proof.
  revert k slots w. induction m as [|m IH]; intros k slots w Hlen Hk Hi; [lia|].
  simpl.
  destruct (lookup_lt_is_Some_2 tasks k) as [p Hp]; [lia|]. rewrite Hp.
  destruct (lookup_lt_is_Some_2 slots k) as [s Hs]; [lia|]. rewrite Hs.
  destruct s as [r|].
  - destruct (decide (i = k)) as [->|Hne].
    + exists r. by apply drain_keeps.
    + apply IH; [done|lia|lia].
  - destruct (worker p w) as [r w'].
    destruct (decide (i = k)) as [->|Hne].
    + exists r. apply drain_keeps. apply list_lookup_insert_eq. lia.
    + apply IH; [by rewrite length_insert|lia|lia].
Qed.

(** Whatever the workers do and in whatever order they run, [gather] hands
    back one result per submitted task. *)
Lemma gather_length order w :
  length (gather worker tasks order w).1 = length tasks.
Proof.
  unfold gather. rewrite drain_app.
  set (s1 := (drain worker tasks order _ w).1).
  set (w1 := (drain worker tasks order _ w).2).
  assert (length s1 = length tasks) as Hs1.
  { unfold s1. by rewrite drain_length, length_replicate. }
  destruct (drain worker tasks (seq 0 (length tasks)) s1 w1) as [s2 w2] eqn:Hd.
  simpl. rewrite omap_id_length.
  - change s2 with (s2, w2).1. by rewrite <- Hd, drain_length.
  - intros i Hi. change s2 with (s2, w2).1. rewrite <- Hd.
    apply drain_seq_filled; [done|lia|].
    change s2 with (s2, w2).1 in Hi. rewrite <- Hd, drain_length in Hi. lia.
Qed.

(** A property of the world that every worker preserves still holds when
    the pool is done. *)
Lemma drain_world (P : World -> Prop) order slots w :
  (forall p w0, p ∈ tasks -> P w0 -> P (worker p w0).2) ->
  P w -> P (drain worker tasks order slots w).2.
Proof.
  intros Hstep. revert slots w.
  induction order as [|i rest IH]; intros slots w Hw; simpl; [done|].
  destruct (tasks !! i) as [p|] eqn:Hp; [|by apply IH].
  destruct (slots !! i) as [[r|]|]; try by apply IH.
  destruct (worker p w) as [r w'] eqn:Hrun. apply IH.
  change w' with (r, w').2. rewrite <- Hrun. apply Hstep; [|done].
  by eapply list_elem_of_lookup_2.
Qed.

Lemma gather_world (P : World -> Prop) order w :
  (forall p w0, p ∈ tasks -> P w0 -> P (worker p w0).2) ->
  P w -> P (gather worker tasks order w).2.
Proof.
  intros Hstep Hw. unfold gather.
  destruct (drain worker tasks _ _ w) as [s2 w2] eqn:Hd. simpl.
  change w2 with (s2, w2).2. rewrite <- Hd. by apply drain_world.
Qed.

(** When the value a worker returns does not depend on the world it runs
    in, the gathered results are those values in submission order. *)
Section Values.
Variable f : pystr -> outcome A.
Hypothesis worker_value : forall p w, (worker p w).1 = f p.

Lemma drain_sound order slots w :
  (forall i r, slots !! i = Some (Some r) ->
               exists p, tasks !! i = Some p /\ r = f p) ->
  forall i r, (drain worker tasks order slots w).1 !! i = Some (Some r) ->
              exists p, tasks !! i = Some p /\ r = f p.
Proof using worker_value.
  revert slots w. induction order as [|j rest IH]; intros slots w Hs; simpl; [done|].
  destruct (tasks !! j) as [p|] eqn:Hp; [|by apply IH].
  destruct (slots !! j) as [[r'|]|] eqn:Hj; try by apply IH.
  destruct (worker p w) as [r' w'] eqn:Hrun. apply IH.
  intros i r Hi. destruct (decide (j = i)) as [->|Hne].
  - rewrite list_lookup_insert_eq in Hi by (by eapply lookup_lt_Some).
    simplify_eq. exists p. split; [done|].
    by rewrite <- (worker_value p w), Hrun.
  - rewrite list_lookup_insert_ne in Hi by done. by apply Hs.
Qed.

Lemma gather_values order w :
  (gather worker tasks order w).1 = map f tasks.
Proof using worker_value.
  unfold gather. rewrite drain_app.
  set (s1 := (drain worker tasks order _ w).1).
  set (w1 := (drain worker tasks order _ w).2).
  assert (length s1 = length tasks) as Hs1.
  { unfold s1. by rewrite drain_length, length_replicate. }
  assert (forall i r, s1 !! i = Some (Some r) ->
                      exists p, tasks !! i = Some p /\ r = f p) as Hsound1.
  { unfold s1. apply drain_sound. intros i r Hi.
    apply lookup_replicate in Hi as [? _]. done. }
  destruct (drain worker tasks (seq 0 (length tasks)) s1 w1) as [s2 w2] eqn:Hd.
  simpl. apply omap_id_filled.
  - change s2 with (s2, w2).1. by rewrite <- Hd, drain_length.
  - intros i p Hp.
    destruct (drain_seq_filled (length tasks) 0 s1 w1 i) as [r Hr];
      [done|lia|split; [lia|by eapply lookup_lt_Some]|].
    pose proof (drain_sound _ _ _ Hsound1 _ _ Hr) as (q & Hq & ->).
    rewrite Hd in Hr. simpl in Hr. congruence.
Qed.
End Values.
End PoolFacts.

(** ** The fan-out coordinator *)

Lemma set_launched_nil w : set_launched (launched w ++ []) w = w.
Proof. destruct w. unfold set_launched. simpl. by rewrite app_nil_r. Qed.

Lemma length_stamped env n pairs : length (stamped env n pairs) = length pairs.
Proof.
  revert n. induction pairs as [|[p r] rest IH]; intros n; simpl; [done|].
  by rewrite IH.
Qed.

Lemma provider_stamped env n pairs : map provider (stamped env n pairs) = map fst pairs.
Proof.
  revert n. induction pairs as [|[p r] rest IH]; intros n; simpl; [done|].
  by rewrite IH.
Qed.

Lemma lookup_stamped env n pairs i p r :
  pairs !! i = Some (p, r) ->
  stamped env n pairs !! i = Some (mkReply p (reply_text p r) (clock env (n + i))).
Proof.
  revert n i. induction pairs as [|[q s] rest IH]; intros n [|i] Hi; simplify_eq/=.
  - by rewrite Nat.add_0_r.
  - rewrite (IH (S n) i) by done. do 3 f_equal. lia.
Qed.

(** The loop never raises; it reads the clock once per pair. *)
Lemma collect_replies_run env pairs w :
  collect_replies env pairs w
  = (Ret (stamped env (ticks w) pairs), set_ticks (ticks w + length pairs) w).
Proof.
  revert w. induction pairs as [|[p r] rest IH]; intros w; simpl.
  - unfold ret, set_ticks. destruct w; simpl. by rewrite Nat.add_0_r.
  - unfold bind at 1, _now_str. unfold bind at 1. rewrite IH. unfold ret, set_ticks.
    simpl. do 2 f_equal. lia.
Qed.

Lemma zip_map_self {X Y} (f : X -> Y) (l : list X) :
  zip l (map f l) = map (fun x => (x, f x)) l.
Proof. induction l as [|x l IH]; simpl; [done|]. by rewrite IH. Qed.

(** The shape of the answer, for any worker: one entry per provider, in the
    order of the request. *)
Lemma ask_with_shape worker env providers prompt w :
  exists out w',
    ask_providers_parallel_with worker env providers prompt w = (Ret out, w')
    /\ length out = length providers
    /\ map provider out = providers.
Proof.
  unfold ask_providers_parallel_with.
  pose proof (gather_length (fun p => worker p prompt) providers (finish_order env) w)
    as Hlen.
  destruct (gather _ providers _ w) as [results w1]. simpl in Hlen.
  rewrite collect_replies_run. do 2 eexists. split; [done|].
  rewrite length_stamped, provider_stamped, length_zip, Hlen. split; [lia|].
  apply fst_zip. lia.
Qed.

(** The fan-out with the blocking invoker: its replies, and what it does to
    the world (it launches processes and reads the clock). *)
Lemma ask_providers_parallel_run env providers prompt w :
  exists L,
    ask_providers_parallel env providers prompt w
    = (Ret (stamped env (ticks w)
              (map (fun p => (p, (run_tgpt_blocking env p prompt w).1)) providers)),
       set_ticks (ticks w + length providers) (set_launched (launched w ++ L) w))
    /\ Forall (fun c => exists p, p ∈ providers /\ c = tgpt_cmd env p prompt) L.
Proof.
  unfold ask_providers_parallel, ask_providers_parallel_with.
  pose proof (gather_values (fun p => run_tgpt_blocking env p prompt) providers
                (fun p => (run_tgpt_blocking env p prompt w).1)
                (fun p w0 => run_tgpt_blocking_value env p prompt w0 w)
                (finish_order env) w) as Hval.
  pose proof (gather_world (fun p => run_tgpt_blocking env p prompt) providers
                (fun w' => exists L, w' = set_launched (launched w ++ L) w
                   /\ Forall (fun c => exists p, p ∈ providers
                                         /\ c = tgpt_cmd env p prompt) L)
                (finish_order env) w) as Hw.
  destruct (gather _ providers _ w) as [results w1]. simpl in Hval, Hw.
  destruct Hw as (L & -> & HL).
  - intros p w0 Hp (L & -> & HL). rewrite run_tgpt_blocking_world. simpl.
    exists (L ++ [tgpt_cmd env p prompt]). split.
    + unfold set_launched. simpl. by rewrite app_assoc.
    + apply Forall_app. split; [done|]. apply Forall_singleton. eauto.
  - exists []. split; [by rewrite set_launched_nil|done].
  - exists L. split; [|done].
    rewrite collect_replies_run, Hval, zip_map_self, length_map. done.
Qed.

Lemma stamped_order order env n pairs :
  stamped (with_finish_order order env) n pairs = stamped env n pairs.
Proof.
  revert n. induction pairs as [|[p r] rest IH]; intros n; simpl; [done|].
  by rewrite IH.
Qed.

(** C1: for every non-empty list of providers P and every prompt T,
    [ask_providers_parallel] returns a list of exactly len(P) entries in the
    order of P; the i-th entry carries the provider P[i], the reply of the
    invoker for that provider and a timestamp.  This holds whatever the
    invocations return, the replies are the same in whatever order the
    workers run, and even a worker that raises leaves one entry per
    provider. *)
Theorem ask_providers_parallel_one_per_provider env providers prompt w :
  providers <> [] ->
  (exists out w',
      ask_providers_parallel env providers prompt w = (Ret out, w')
      /\ length out = length providers
      /\ map provider out = providers
      /\ forall i p, providers !! i = Some p ->
           out !! i = Some (mkReply p
                              (reply_text p (run_tgpt_blocking env p prompt w).1)
                              (clock env (ticks w + i))))
  /\ (forall order,
        (ask_providers_parallel (with_finish_order order env) providers prompt w).1
        = (ask_providers_parallel env providers prompt w).1)
  /\ (forall worker,
        exists out w',
          ask_providers_parallel_with worker env providers prompt w = (Ret out, w')
          /\ length out = length providers
          /\ map provider out = providers).
Proof.
  intros _. split; [|split].
  - destruct (ask_providers_parallel_run env providers prompt w) as (L & Hrun & _).
    do 2 eexists. split; [exact Hrun|].
    rewrite length_stamped, provider_stamped, length_map, map_map. simpl.
    split; [done|]. split; [apply map_id|].
    intros i p Hp. apply lookup_stamped.
    by rewrite list_lookup_fmap, Hp.
  - intros order.
    destruct (ask_providers_parallel_run env providers prompt w) as (L & -> & _).
    destruct (ask_providers_parallel_run (with_finish_order order env) providers
                prompt w) as (L' & -> & _).
    cbn [fst]. by rewrite stamped_order.
  - intros worker. apply ask_with_shape.
Qed.

Lemma ask_providers_parallel_sky_phind :
  exists out w',
    ask_providers_parallel sample_env [lit "sky"; lit "phind"] (lit "hello") world_off
    = (Ret out, w')
    /\ length out = 2
    /\ map provider out = [lit "sky"; lit "phind"].
Proof.
  destruct (ask_providers_parallel_one_per_provider sample_env
              [lit "sky"; lit "phind"] (lit "hello") world_off)
    as ((out & w' & Hrun & Hlen & Hprov & _) & _).
  - discriminate.
  - exists out, w'. split; [exact Hrun|]. split; [exact Hlen|exact Hprov].
Defined.

(** ** Computations that never raise, computations that launch nothing *)

Lemma returns_run {A} (m : M A) w :
  returns m -> exists a w', m w = (Ret a, w').
Proof.
  intros H. destruct (H w) as [a Ha]. destruct (m w) as [r w'].
  simpl in Ha. subst. by exists a, w'.
Qed.

Lemma returns_ret {A} (a : A) : returns (ret a).
Proof. intros w. by exists a. Qed.

Lemma returns_bind {A B} (m : M A) (k : A -> M B) :
  returns m -> (forall a, returns (k a)) -> returns (bind m k).
Proof.
  intros Hm Hk w. unfold bind.
  destruct (returns_run m w Hm) as (a & w' & ->). apply Hk.
Qed.

Lemma returns_try {A} (body : M A) (handler : PyException -> M A) :
  (forall e, returns (handler e)) -> returns (try_except body handler).
Proof.
  intros Hh w. unfold try_except.
  destruct (body w) as [[a|e] w']; [by exists a|apply Hh].
Qed.

Lemma returns_if {A} (b : bool) (m1 m2 : M A) :
  returns m1 -> returns m2 -> returns (if b then m1 else m2).
Proof. by destruct b. Qed.

Lemma returns_get_world : returns get_world.
Proof. intros w. by exists w. Qed.

Lemma returns_modify f : returns (modify f).
Proof. intros w. by exists tt. Qed.

Lemma returns_now env : returns (_now_str env).
Proof. intros w. by eexists. Qed.

Lemma quiet_ret {A} (a : A) : quiet (ret a).
Proof. by intros w. Qed.

Lemma quiet_bind {A B} (m : M A) (k : A -> M B) :
  quiet m -> (forall a, quiet (k a)) -> quiet (bind m k).
Proof.
  intros Hm Hk w. unfold bind. specialize (Hm w).
  destruct (m w) as [[a|e] w']; simpl in *; [|done].
  by rewrite Hk.
Qed.

Lemma quiet_try {A} (body : M A) (handler : PyException -> M A) :
  quiet body -> (forall e, quiet (handler e)) -> quiet (try_except body handler).
Proof.
  intros Hb Hh w. unfold try_except. specialize (Hb w).
  destruct (body w) as [[a|e] w']; simpl in *; [done|].
  by rewrite Hh.
Qed.

Lemma quiet_if {A} (b : bool) (m1 m2 : M A) :
  quiet m1 -> quiet m2 -> quiet (if b then m1 else m2).
Proof. by destruct b. Qed.

Lemma quiet_get_world : quiet get_world.
Proof. by intros w. Qed.

Lemma quiet_modify f :
  (forall w, launched (f w) = launched w) -> quiet (modify f).
Proof. intros H w. apply H. Qed.

Lemma quiet_now env : quiet (_now_str env).
Proof. by intros w. Qed.

Lemma quiet_print line : quiet (print line).
Proof. by apply quiet_modify. Qed.

Lemma returns_print line : returns (print line).
Proof. apply returns_modify. Qed.

Lemma quiet_cursor : quiet cursor.
Proof. intros w. unfold cursor. by destruct (db_conn w). Qed.

Lemma quiet_execute {A} (stmt : list Row -> A * list Row) : quiet (execute stmt).
Proof.
  intros w. unfold execute. destruct (db_conn w) as [db|]; [|done].
  destruct (db_fault db); [done|]. by destruct (stmt _).
Qed.

Create HintDb relay discriminated.
#[local] Hint Resolve returns_ret returns_bind returns_try returns_if
  returns_get_world returns_modify returns_now returns_print : relay.
#[local] Hint Resolve quiet_ret quiet_bind quiet_try quiet_if quiet_get_world
  quiet_now quiet_print quiet_cursor quiet_execute : relay.

(** ** The session recorder *)

Lemma returns_save_to_db env session_id provider message mtype :
  returns (save_to_db env session_id provider message mtype).
Proof.
  unfold save_to_db. apply returns_bind; [auto with relay|].
  intros w. apply returns_if; auto with relay.
Qed.

Lemma quiet_save_to_db env session_id provider message mtype :
  quiet (save_to_db env session_id provider message mtype).
Proof.
  unfold save_to_db. apply quiet_bind; [auto with relay|].
  intros w. apply quiet_if; auto 10 with relay.
Qed.

Lemma save_to_db_unit env session_id provider message mtype w :
  (save_to_db env session_id provider message mtype w).1 = Ret tt.
Proof.
  destruct (returns_save_to_db env session_id provider message mtype w) as [[] H].
  done.
Qed.

Lemma returns_fetch_history session_id limit :
  returns (fetch_history session_id limit).
Proof.
  unfold fetch_history. apply returns_bind; [auto with relay|].
  intros w. apply returns_if; auto 10 with relay.
Qed.

Lemma quiet_fetch_history session_id limit :
  quiet (fetch_history session_id limit).
Proof.
  unfold fetch_history. apply quiet_bind; [auto with relay|].
  intros w. apply quiet_if; auto 10 with relay.
Qed.

(** With the storage switched off nothing is read and nothing is logged. *)
Lemma fetch_history_disabled session_id limit w :
  USE_DB w = false -> fetch_history session_id limit w = (Ret [], w).
Proof. intros H. unfold fetch_history, bind, get_world. by rewrite H. Qed.

Lemma save_to_db_disabled env session_id provider message mtype w :
  USE_DB w = false ->
  save_to_db env session_id provider message mtype w = (Ret tt, w).
Proof. intros H. unfold save_to_db, bind, get_world. by rewrite H. Qed.

(** A working connection: the row is appended, stamped with the clock. *)
Lemma save_to_db_healthy env session_id provider message mtype w db :
  USE_DB w = true -> db_conn w = Some db -> db_fault db = None ->
  save_to_db env session_id provider message mtype w
  = (Ret tt,
     set_db (Some (mkDb (conversations db
                         ++ [mkRow session_id provider message mtype
                                   (clock env (ticks w))]) None))
            (set_ticks (S (ticks w)) w)).
Proof.
  intros Huse Hconn Hfault.
  unfold save_to_db, bind, get_world, try_except, cursor, _now_str, execute.
  destruct w as [use conn fs out cmds t]. simpl in *. subst. simpl.
  by rewrite Hfault.
Qed.

(** A failing statement: the failure is printed, the table is untouched. *)
Lemma save_to_db_failing env session_id provider message mtype w e :
  USE_DB w = true -> storage_error w = Some e ->
  exists w',
    save_to_db env session_id provider message mtype w = (Ret tt, w')
    /\ db_conn w' = db_conn w
    /\ printed w' = printed w ++ [lit "[DB] insert failed: " ++ exc_str e].
Proof.
  intros Huse Herr. unfold storage_error in Herr.
  unfold save_to_db, bind, get_world, try_except, cursor, _now_str, execute, print,
    modify.
  destruct w as [use [db|] fs out cmds t]; simpl in *; subst; simpl.
  - rewrite Herr. by eexists.
  - simplify_eq. by eexists.
Qed.

Lemma fetch_history_failing session_id limit w e :
  USE_DB w = true -> storage_error w = Some e ->
  fetch_history session_id limit w
  = (Ret [], set_printed (printed w ++ [lit "[DB] history failed: " ++ exc_str e]) w).
Proof.
  intros Huse Herr. unfold storage_error in Herr.
  unfold fetch_history, bind, get_world, try_except, cursor, execute, print, modify,
    ret.
  destruct w as [use [db|] fs out cmds t]; simpl in *; subst; simpl.
  - by rewrite Herr.
  - by simplify_eq.
Qed.

Lemma clear_history_failing session_id w e :
  storage_error w = Some e ->
  clear_history session_id w
  = (Ret (jsonify_status (JObj [(lit "error", JStr (exc_str e))]) 500), w).
Proof.
  intros Herr. unfold storage_error in Herr.
  unfold clear_history, bind, try_except, cursor, execute, ret.
  destruct w as [use [db|] fs out cmds t]; simpl in *; subst; simpl.
  - by rewrite Herr.
  - by simplify_eq.
Qed.

(** ** The dataset exporter *)

Lemma set_files_same w : set_files (files w) w = w.
Proof. by destruct w. Qed.

Lemma write_each_run fp render entries w old :
  files w !! fp = Some old ->
  write_each fp render entries w
  = (Ret tt, set_files (<[fp := old ++ concat (map render entries)]> (files w)) w).
Proof.
  revert w old. induction entries as [|e rest IH]; intros w old Hold.
  - simpl. rewrite app_nil_r, insert_id by done. by rewrite set_files_same.
  - cbn [write_each map concat]. unfold bind, write at 1, modify. rewrite Hold.
    cbn [default from_option].
    rewrite (IH _ (old ++ render e)) by apply lookup_insert_eq.
    unfold set_files. world_simpl.
    by rewrite insert_insert_eq, app_assoc.
Qed.

(** One export: the destination keeps what it held and receives the header
    (if the export created it, in the row format) and then the records. *)
Lemma append_dataset_lines_run fp session_id fmt entries w :
  append_dataset_lines fp session_id fmt entries w
  = (Ret tt,
     set_files (<[fp := default [] (files w !! fp)
                        ++ header_if_new fmt (files w !! fp)
                        ++ batch session_id fmt entries]> (files w)) w).
Proof.
  unfold append_dataset_lines, batch, header_if_new.
  destruct (decide (fmt = lit "csv")) as [Hcsv|Hjson].
  - unfold bind, exists_, open_append, modify.
    destruct (files w !! fp) as [old|] eqn:Hold.
    + rewrite bool_decide_eq_true_2 by done. world_simpl. unfold ret.
      by rewrite (write_each_run _ _ _ _ old).
    + rewrite bool_decide_eq_false_2 by (by intros [? ?]). world_simpl.
      unfold write at 1, modify. world_simpl.
      rewrite lookup_insert_eq. world_simpl.
      rewrite (write_each_run _ _ _ _ lines_header) by apply lookup_insert_eq.
      unfold set_files. world_simpl. by rewrite !insert_insert_eq, app_nil_l.
  - unfold bind, open_append, modify.
    destruct (files w !! fp) as [old|] eqn:Hold; world_simpl.
    + by rewrite (write_each_run _ _ _ _ old).
    + rewrite (write_each_run _ _ _ _ []) by apply lookup_insert_eq.
      unfold set_files. world_simpl. by rewrite insert_insert_eq.
Qed.


Lemma returns_write fp text : returns (write fp text).
Proof. apply returns_modify. Qed.

Lemma returns_open_append fp : returns (open_append fp).
Proof. apply returns_modify. Qed.

#[local] Hint Resolve returns_write returns_open_append : relay.

Lemma returns_write_each fp render entries : returns (write_each fp render entries).
Proof. induction entries; simpl; auto with relay. Qed.

Lemma quiet_exists fp : quiet (exists_ fp).
Proof. by intros w. Qed.

Lemma returns_exists fp : returns (exists_ fp).
Proof. intros w. by eexists. Qed.

Lemma quiet_open_append fp : quiet (open_append fp).
Proof. apply quiet_modify. intros w. by destruct (files w !! fp). Qed.

Lemma quiet_write fp text : quiet (write fp text).
Proof. by apply quiet_modify. Qed.

Lemma returns_append_dataset_lines fp session_id fmt entries :
  returns (append_dataset_lines fp session_id fmt entries).
Proof. intros w. rewrite append_dataset_lines_run. by eexists. Qed.

Lemma quiet_append_dataset_lines fp session_id fmt entries :
  quiet (append_dataset_lines fp session_id fmt entries).
Proof. intros w. by rewrite append_dataset_lines_run. Qed.

#[local] Hint Resolve returns_exists quiet_exists quiet_open_append quiet_write
  returns_append_dataset_lines quiet_append_dataset_lines
  returns_save_to_db quiet_save_to_db returns_fetch_history quiet_fetch_history
  : relay.

Lemma returns_append_dataset_dialog env fp session_id fmt dialog :
  returns (append_dataset_dialog env fp session_id fmt dialog).
Proof.
  unfold append_dataset_dialog.
  apply returns_bind; [auto with relay|]. intros saved_at.
  destruct (decide _); auto 10 with relay.
Qed.

Lemma quiet_append_dataset_dialog env fp session_id fmt dialog :
  quiet (append_dataset_dialog env fp session_id fmt dialog).
Proof.
  unfold append_dataset_dialog.
  apply quiet_bind; [auto with relay|]. intros saved_at.
  destruct (decide _); auto 10 with relay.
Qed.

Lemma returns_dataset_path env filename fmt : returns (dataset_path env filename fmt).
Proof.
  unfold dataset_path. apply returns_bind; [|auto with relay].
  destruct (truthy filename); [auto with relay|]. intros w. by eexists.
Qed.

Lemma quiet_dataset_path env filename fmt : quiet (dataset_path env filename fmt).
Proof.
  unfold dataset_path. apply quiet_bind; [|auto with relay].
  destruct (truthy filename); [auto with relay|]. by intros w.
Qed.

#[local] Hint Resolve returns_append_dataset_dialog quiet_append_dataset_dialog
  returns_dataset_path quiet_dataset_path : relay.

Lemma returns_dataset_save env save_dataset filename save_format save_shape
    session_id entries :
  returns (dataset_save env save_dataset filename save_format save_shape
             session_id entries).
Proof.
  unfold dataset_save. destruct save_dataset; [|auto with relay].
  apply returns_bind; [auto with relay|]. intros fp.
  apply returns_bind; [|auto with relay].
  destruct (decide _); [|auto with relay].
  apply returns_bind; [auto with relay|]. intros w0.
  apply returns_bind; [|auto with relay].
  destruct (USE_DB w0); auto with relay.
Qed.

Lemma quiet_dataset_save env save_dataset filename save_format save_shape
    session_id entries :
  quiet (dataset_save env save_dataset filename save_format save_shape
           session_id entries).
Proof.
  unfold dataset_save. destruct save_dataset; [|auto with relay].
  apply quiet_bind; [auto with relay|]. intros fp.
  apply quiet_bind; [|auto with relay].
  destruct (decide _); [|auto with relay].
  apply quiet_bind; [auto with relay|]. intros w0.
  apply quiet_bind; [|auto with relay].
  destruct (USE_DB w0); auto with relay.
Qed.

Lemma returns_save_replies env session_id mtype replies :
  returns (save_replies env session_id mtype replies).
Proof. induction replies; simpl; auto with relay. Qed.

Lemma quiet_save_replies env session_id mtype replies :
  quiet (save_replies env session_id mtype replies).
Proof. induction replies; simpl; auto with relay. Qed.

(** ** Responses *)

Lemma contents_stamped env n pairs :
  contents (stamped env n pairs) = map (fun pr => (pr.1, reply_text pr.1 pr.2)) pairs.
Proof.
  unfold contents. revert n.
  induction pairs as [|[p r] rest IH]; intros n; simpl; [done|]. by rewrite IH.
Qed.

Lemma reply_content_members r extra :
  reply_content (JObj (reply_members r ++ extra)) = Some (provider r, reply r).
Proof. reflexivity. Qed.

Lemma member_saved key saved :
  key <> lit "saved_to" -> member key (saved_members saved) = None.
Proof.
  intros Hkey. destruct saved as [fp|]; [|done]. simpl.
  destruct (truthy fp); [|done]. simpl.
  by rewrite bool_decide_eq_false_2.
Qed.

Lemma member_reply_members key r extra :
  key <> lit "provider" -> key <> lit "reply" -> key <> lit "timestamp" ->
  member key (reply_members r ++ extra) = member key extra.
Proof.
  intros H1 H2 H3. simpl. by rewrite !bool_decide_eq_false_2.
Qed.

Lemma omap_cons_Some {X Y} (f : X -> option Y) x l y :
  f x = Some y -> omap f (x :: l) = y :: omap f l.
Proof. intros H. simpl. by rewrite H. Qed.

Lemma omap_reply_content replies :
  omap reply_content (map (fun r => JObj (reply_members r)) replies)
  = contents replies.
Proof.
  induction replies as [|r rest IH]; [done|].
  cbn [map contents]. fold (contents rest). rewrite <- IH.
  by apply omap_cons_Some.
Qed.

Lemma replies_of_multi replies saved :
  replies_of (jsonify (JObj ((lit "multi", JArr (map (fun r => JObj (reply_members r)) replies))
                             :: saved_members saved)))
  = contents replies.
Proof.
  unfold replies_of, jsonify. cbn [body member].
  rewrite bool_decide_eq_true_2 by done. apply omap_reply_content.
Qed.

Lemma error_member_multi replies saved :
  error_member (jsonify (JObj ((lit "multi", JArr (map (fun r => JObj (reply_members r)) replies))
                               :: saved_members saved)))
  = None.
Proof.
  unfold error_member, jsonify. cbn [body member].
  rewrite bool_decide_eq_false_2 by (vm_compute; discriminate).
  apply member_saved. vm_compute. discriminate.
Qed.

Lemma replies_of_ask_response replies saved :
  replies_of (ask_response replies saved) = contents replies.
Proof.
  unfold ask_response. destruct replies as [|r [|r' rest]];
    try apply replies_of_multi.
  unfold replies_of, jsonify. cbn [body].
  rewrite member_reply_members by (vm_compute; discriminate).
  rewrite member_saved by (vm_compute; discriminate).
  by rewrite reply_content_members.
Qed.

Lemma error_member_ask_response replies saved :
  error_member (ask_response replies saved) = None.
Proof.
  unfold ask_response. destruct replies as [|r [|r' rest]];
    try apply error_member_multi.
  unfold error_member, jsonify. cbn [body].
  rewrite member_reply_members by (vm_compute; discriminate).
  apply member_saved. vm_compute. discriminate.
Qed.

Lemma status_ask_response replies saved : status (ask_response replies saved) = 200.
Proof. unfold ask_response. by destruct replies as [|r [|r' rest]]. Qed.

(** ** The handlers *)

(** Runs a step that never raises and launches nothing, naming its result
    and the world it leaves. *)
Ltac run_quiet Hret Hquiet w a w' Hl :=
  let Hrun := fresh "Hrun" in
  pose proof (Hquiet w) as Hl;
  destruct (returns_run _ w Hret) as (a & w' & Hrun);
  rewrite Hrun in Hl |- *; cbn [fst snd] in Hl.

(** /ask past its early returns: it answers with the replies of the
    fan-out, and launches only invocations of the requested providers. *)
Lemma answer_run env session_id query save_dataset filename save_format save_shape
    providers w :
  exists saved w' L,
    answer env session_id query save_dataset filename save_format save_shape
           providers w
    = (Ret (ask_response
              (stamped env (ticks w)
                 (map (fun p => (p, (run_tgpt_blocking env p (ask_prompt query) w).1))
                      providers))
              saved), w')
    /\ launched w' = launched w ++ L
    /\ Forall (fun c => exists p, p ∈ providers
                                  /\ c = tgpt_cmd env p (ask_prompt query)) L.
Proof.
  unfold answer. cbv zeta. unfold bind at 1.
  destruct (ask_providers_parallel_run env providers (ask_prompt query) w)
    as (L & -> & HL).
  generalize (stamped env (ticks w)
                (map (fun p => (p, (run_tgpt_blocking env p (ask_prompt query) w).1))
                     providers)).
  intros out. set (w1 := set_ticks _ _).
  assert (launched w1 = launched w ++ L) as Hw1 by done.
  clearbody w1. unfold bind at 1.
  run_quiet (returns_save_replies env session_id (lit "bot") out)
            (quiet_save_replies env session_id (lit "bot") out) w1 entries w2 Hw2.
  unfold bind at 1.
  run_quiet (returns_dataset_save env save_dataset filename save_format save_shape
               session_id entries)
            (quiet_dataset_save env save_dataset filename save_format save_shape
               session_id entries) w2 saved w3 Hw3.
  exists saved, w3, L. split; [|split; [congruence|done]].
  unfold ask_response. by destruct out as [|r [|r' rest]].
Qed.

(** /ask, with its early returns spelled out. *)
Lemma ask_unfold env request w :
  let session_id := req_session_id request in
  let provider := req_provider request in
  let query := req_query request in
  let w1 := if truthy query
            then (save_to_db env session_id (lit "user") query (lit "user") w).2
            else w in
  ask env request w
  = if negb (truthy query) && negb (has_file request) then
      (Ret (jsonify_status (JObj [(lit "error", JStr (lit "empty query"))]) 200), w)
    else if decide (provider = lit "group") then
      answer env session_id query
        (bool_decide (strip (default (lit "0") (form_save_dataset request))
                      ∈ [lit "1"; lit "true"; lit "True"; lit "yes"; lit "on"]))
        (strip (opt_or (form_filename request) []))
        (lower (strip (opt_or (form_save_format request) (lit "csv"))))
        (lower (strip (opt_or (form_save_shape request) (lit "lines"))))
        GROUP_LIST w1
    else if negb (bool_decide (provider ∈ VALID_PROVIDERS)) then
      (Ret (invalid_provider provider), w1)
    else
      answer env session_id query
        (bool_decide (strip (default (lit "0") (form_save_dataset request))
                      ∈ [lit "1"; lit "true"; lit "True"; lit "yes"; lit "on"]))
        (strip (opt_or (form_filename request) []))
        (lower (strip (opt_or (form_save_format request) (lit "csv"))))
        (lower (strip (opt_or (form_save_shape request) (lit "lines"))))
        [provider] w1.
Proof.
  intros session_id provider query w1. subst w1.
  unfold ask. fold (req_session_id request) (req_provider request) (req_query request).
  fold session_id provider query.
  destruct (negb (truthy query) && negb (has_file request)); [done|].
  unfold bind at 1. destruct (truthy query).
  - pose proof (save_to_db_unit env session_id (lit "user") query (lit "user") w) as Hu.
    destruct (save_to_db env session_id (lit "user") query (lit "user") w) as [r w1].
    simpl in Hu. subst r. cbn [snd].
    destruct (decide (provider = lit "group")); [done|].
    by destruct (negb (bool_decide (provider ∈ VALID_PROVIDERS))).
  - unfold ret at 1. destruct (decide (provider = lit "group")); [done|].
    by destruct (negb (bool_decide (provider ∈ VALID_PROVIDERS))).
Qed.

Lemma quiet_user_message env session_id query w :
  launched (if truthy query
            then (save_to_db env session_id (lit "user") query (lit "user") w).2
            else w)
  = launched w.
Proof. destruct (truthy query); [apply quiet_save_to_db|done]. Qed.

(** /ask never fails: it always answers with status 200, and what it says
    the providers replied does not depend on the world it runs in. *)
Lemma ask_run env request w w0 :
  exists r w' r0 w0',
    ask env request w = (Ret r, w')
    /\ ask env request w0 = (Ret r0, w0')
    /\ status r = 200
    /\ replies_of r = replies_of r0.
Proof.
  rewrite !ask_unfold. cbv zeta.
  set (session_id := req_session_id request).
  set (provider := req_provider request).
  set (query := req_query request).
  destruct (negb (truthy query) && negb (has_file request)).
  { do 4 eexists. done. }
  set (w1 := if truthy query then _ else w).
  set (w2 := if truthy query then _ else w0).
  assert (forall providers sd fn sf ss,
    exists r w' r0 w0',
      answer env session_id query sd fn sf ss providers w1 = (Ret r, w')
      /\ answer env session_id query sd fn sf ss providers w2 = (Ret r0, w0')
      /\ status r = 200
      /\ replies_of r = replies_of r0)
    as Hanswer.
  { intros providers sd fn sf ss.
    destruct (answer_run env session_id query sd fn sf ss providers w1)
      as (saved1 & w1' & L1 & -> & _).
    destruct (answer_run env session_id query sd fn sf ss providers w2)
      as (saved2 & w2' & L2 & -> & _).
    do 4 eexists. split; [done|]. split; [done|].
    split; [apply status_ask_response|].
    rewrite !replies_of_ask_response, !contents_stamped, !map_map.
    apply map_ext. intros p. cbn [fst snd].
    by rewrite (run_tgpt_blocking_value env p (ask_prompt query) w1 w2). }
  destruct (decide (provider = lit "group")); [apply Hanswer|].
  destruct (negb (bool_decide (provider ∈ VALID_PROVIDERS))); [|apply Hanswer].
  do 4 eexists. done.
Qed.

(** /brainstorm only ever resolves to configured providers, and to at least
    one of them. *)
Lemma resolve_providers_valid requested p :
  p ∈ resolve_providers requested -> p ∈ VALID_PROVIDERS.
Proof.
  unfold resolve_providers, GROUP_LIST.
  destruct (_ || _); [done|].
  case_bool_decide; [done|].
  intros Hp. by apply list_elem_of_filter in Hp as [Hp _].
Qed.

Lemma resolve_providers_nonempty requested : resolve_providers requested <> [].
Proof.
  unfold resolve_providers, GROUP_LIST.
  destruct (_ || _); [done|].
  by case_bool_decide.
Qed.

(** /brainstorm never rejects: it answers with one reply per resolved
    provider and launches only invocations of resolved providers. *)
Lemma brainstorm_run env data w :
  let providers := resolve_providers (data_providers data) in
  let prompt := build_brainstorm_prompt (default [] (data_messages data)) in
  exists r w' L,
    brainstorm env data w = (Ret r, w')
    /\ status r = 200
    /\ error_member r = None
    /\ replies_of r
       = map (fun p => (p, reply_text p (run_tgpt_blocking env p prompt w).1)) providers
    /\ launched w' = launched w ++ L
    /\ Forall (fun c => exists p, p ∈ providers /\ c = tgpt_cmd env p prompt) L.
Proof.
  intros providers prompt. unfold brainstorm. cbv zeta.
  fold providers prompt. unfold bind at 1.
  destruct (ask_providers_parallel_run env providers prompt w) as (L & -> & HL).
  assert (contents (stamped env (ticks w)
            (map (fun p => (p, (run_tgpt_blocking env p prompt w).1)) providers))
          = map (fun p => (p, reply_text p (run_tgpt_blocking env p prompt w).1))
                providers) as Hcontents.
  { by rewrite contents_stamped, map_map. }
  revert Hcontents.
  generalize (stamped env (ticks w)
                (map (fun p => (p, (run_tgpt_blocking env p prompt w).1)) providers)).
  intros out Hcontents. set (w1 := set_ticks _ _).
  assert (launched w1 = launched w ++ L) as Hw1 by done.
  clearbody w1. unfold bind at 1.
  set (session_id := strip (opt_or (data_session_id data) (lit "default"))).
  run_quiet (returns_save_replies env session_id (lit "brainstorm") out)
            (quiet_save_replies env session_id (lit "brainstorm") out)
            w1 entries w2 Hw2.
  unfold bind at 1.
  match goal with
  | |- context [dataset_save env ?sd ?fn ?sf ?ss session_id entries w2] =>
      run_quiet (returns_dataset_save env sd fn sf ss session_id entries)
                (quiet_dataset_save env sd fn sf ss session_id entries)
                w2 saved w3 Hw3
  end.
  exists (jsonify (JObj ((lit "multi", JArr (map (fun r => JObj (reply_members r)) out))
                          :: saved_members saved))), w3, L.
  split; [done|]. split; [done|]. split; [apply error_member_multi|].
  split; [by rewrite replies_of_multi|]. split; [congruence|done].
Qed.

(** ** The claims about the handlers *)



(** The replies read off a response are the replies the providers gave. *)
Example replies_of_ask_sky :
  exists r w',
    ask sample_env ask_sky world_on = (Ret r, w')
    /\ replies_of r = [(lit "sky", lit "hi there")].
Proof. do 2 eexists. split; [vm_compute; reflexivity|]. vm_compute. reflexivity. Qed.

(** C10: rejecting an /ask request for an unknown provider is not atomic
    with respect to storage.  For every request with a non-empty query and a
    provider that is neither "group" nor a valid provider, the handler has
    run [save_to_db] on the user's message, with type "user", before it
    returns the rejection; with a working storage the rejected request
    leaves one more row in the table. *)
Theorem ask_rejection_keeps_user_message env request w :
  req_query request <> [] ->
  req_provider request <> lit "group" ->
  req_provider request ∉ VALID_PROVIDERS ->
  ask env request w
  = (Ret (invalid_provider (req_provider request)),
     (save_to_db env (req_session_id request) (lit "user") (req_query request)
        (lit "user") w).2)
  /\ forall db,
      USE_DB w = true -> db_conn w = Some db -> db_fault db = None ->
      db_conn (ask env request w).2
      = Some (mkDb (conversations db
                    ++ [mkRow (req_session_id request) (lit "user")
                              (req_query request) (lit "user")
                              (clock env (ticks w))]) None).
Proof.
  intros Hquery Hgroup Hvalid.
  assert (ask env request w
          = (Ret (invalid_provider (req_provider request)),
             (save_to_db env (req_session_id request) (lit "user")
                (req_query request) (lit "user") w).2)) as Hask.
  { rewrite ask_unfold. cbv zeta.
    apply truthy_true in Hquery. rewrite Hquery. cbn [negb andb].
    destruct (decide _) as [?|_]; [done|].
    by rewrite bool_decide_eq_false_2. }
  split; [done|]. intros db Huse Hconn Hfault.
  rewrite Hask. cbn [snd].
  by rewrite (save_to_db_healthy _ _ _ _ _ _ db).
Qed.

Lemma ask_rejection_keeps_user_message_bogus :
  db_conn (ask sample_env ask_bogus world_on).2
  = Some (mkDb [mkRow (lit "s1") (lit "user") (lit "hi") (lit "user")
                      (lit "2025-01-01 00:00:00")] None).
Proof.
  apply (proj2 (ask_rejection_keeps_user_message sample_env ask_bogus world_on
                  ltac:(vm_compute; discriminate)
                  ltac:(vm_compute; discriminate)
                  ltac:(vm_compute; intros H; repeat (apply elem_of_cons in H as [H|H]; [discriminate H|]); by apply elem_of_nil in H))
               (mkDb [] None));
    reflexivity.
Defined.








(** * Further properties *)

(** ** The backend invoker, continued *)

Lemma lit_open_bracket : lit "[" = [91%N].
Proof. reflexivity. Qed.

Lemma fmt_error_nonempty provider msg : fmt_error provider msg <> [].
Proof. unfold fmt_error. by rewrite lit_open_bracket. Qed.

Lemma fmt_no_output_nonempty provider : fmt_no_output provider <> [].
Proof. unfold fmt_no_output. by rewrite lit_open_bracket. Qed.

(** X1: the reply of [run_tgpt_blocking] is never the empty string: it is
    the non-empty trimmed output, or a bracketed message naming the
    provider. *)
Theorem run_tgpt_blocking_reply_nonempty env provider prompt w :
  exists s, (run_tgpt_blocking env provider prompt w).1 = Ret s /\ s <> [].
Proof.
  destruct (subprocess_run env (tgpt_cmd env provider prompt) (TGPT_TIMEOUT env))
    as [res|e] eqn:Hres.
  - rewrite (run_tgpt_blocking_completed _ _ _ res) by done.
    eexists. split; [done|].
    destruct (truthy (strip (stdout res))) eqn:Hout; [by apply truthy_true|].
    destruct (truthy (strip (stderr res)));
      [apply fmt_error_nonempty|apply fmt_no_output_nonempty].
  - rewrite (run_tgpt_blocking_raised _ _ _ e) by done.
    eexists. split; [done|apply fmt_error_nonempty].
Qed.

(** X2: when the process completes without output, the reply is short
    however much the process wrote on its standard error: at most 809
    characters more than the provider's name. *)
Theorem run_tgpt_blocking_error_bounded env provider prompt res w s :
  subprocess_run env (tgpt_cmd env provider prompt) (TGPT_TIMEOUT env) = Ret res ->
  strip (stdout res) = [] ->
  (run_tgpt_blocking env provider prompt w).1 = Ret s ->
  length s <= length provider + 809.
Proof.
  intros Hres Hout. rewrite (run_tgpt_blocking_completed _ _ _ res) by done.
  rewrite Hout. cbn [truthy]. intros Hs.
  destruct (truthy (strip (stderr res))); simplify_eq.
  - unfold fmt_error. rewrite !length_app, length_take.
    change (length (lit "[")) with 1. change (length (lit " error] ")) with 8. lia.
  - unfold fmt_no_output. rewrite !length_app.
    change (length (lit "[")) with 1. change (length (lit "] (no output)")) with 13.
    lia.
Qed.

Lemma run_tgpt_blocking_error_bounded_phind :
  length (lit "[phind error] connection refused") <= length (lit "phind") + 809.
Proof.
  apply (run_tgpt_blocking_error_bounded sample_env (lit "phind") (lit "hello")
           (mkProc 2 [10%N] (lit "  connection refused" ++ [10%N])) world_on
           (lit "[phind error] connection refused")); reflexivity.
Defined.

(** X3: [run_tgpt] never raises either: whatever the process does, it
    returns a non-empty string, and all it does to the world is launch that
    one process. *)
Theorem run_tgpt_never_raises env provider prompt w :
  exists s,
    run_tgpt env provider prompt w
    = (Ret s, set_launched (launched w ++ [tgpt_cmd env provider prompt]) w)
    /\ s <> [].
Proof.
  unfold run_tgpt, try_except, bind, launch, ret. cbv zeta.
  destruct (async_exec env _ _) as [out|e]; cbn [fst snd].
  - destruct (truthy (strip (stderr out)) && negb (truthy (strip (stdout out))))
      eqn:Hc.
    + eexists. split; [done|apply fmt_error_nonempty].
    + eexists. split; [done|]. unfold py_or.
      destruct (truthy (strip (stdout out))) eqn:Hout;
        [by apply truthy_true|apply fmt_no_output_nonempty].
  - eexists. split; [done|apply fmt_error_nonempty].
Qed.

(** ** The fan-out coordinator, continued *)

Lemma pending_replicate {X} (tasks : list pystr) :
  pending tasks (replicate (length tasks) (@None X)) = tasks.
Proof. induction tasks as [|p ts IH]; simpl; [done|]. by rewrite IH. Qed.

Lemma pending_filled {X} (tasks : list pystr) (slots : list (option X)) :
  (forall i, i < length tasks -> exists r, slots !! i = Some (Some r)) ->
  pending tasks slots = [].
Proof.
  revert slots. induction tasks as [|p ts IH]; intros slots Hall; [done|].
  destruct (Hall 0) as [r Hr]; [simpl; lia|].
  destruct slots as [|s ss]; simplify_eq/=.
  apply IH. intros i Hi. apply (Hall (S i)). lia.
Qed.

Lemma pending_insert {X} (tasks : list pystr) (slots : list (option X)) i p r :
  tasks !! i = Some p -> slots !! i = Some None ->
  pending tasks slots ≡ₚ p :: pending tasks (<[i := Some r]> slots).
Proof.
  revert slots i. induction tasks as [|q ts IH]; intros [|s ss] [|i] Hp Hs;
    simplify_eq/=; [done|].
  destruct s as [x|].
  - by apply IH.
  - rewrite (IH ss i) by done. apply perm_swap.
Qed.

Section PoolLaunches.
Context {A : Type}.
Variable worker : pystr -> M A.
Variable tasks : list pystr.
Variable cmd : pystr -> list pystr.
Hypothesis worker_launches :
  forall p w, launched (worker p w).2 = launched w ++ [cmd p].

(** Every launch of the pool resolves one pending task. *)
Lemma drain_launches order slots w :
  launched (drain worker tasks order slots w).2
    ++ map cmd (pending tasks (drain worker tasks order slots w).1)
  ≡ₚ launched w ++ map cmd (pending tasks slots).
Proof using worker_launches.
  revert slots w. induction order as [|i rest IH]; intros slots w; simpl; [done|].
  destruct (tasks !! i) as [p|] eqn:Hp; [|apply IH].
  destruct (slots !! i) as [[r|]|] eqn:Hs; try apply IH.
  pose proof (worker_launches p w) as Hl.
  destruct (worker p w) as [r w']. cbn [snd] in Hl.
  rewrite IH, Hl. rewrite (pending_insert tasks slots i p r) by done.
  simpl. rewrite <- app_assoc. simpl. done.
Qed.

Lemma gather_launches order w :
  launched (gather worker tasks order w).2 ≡ₚ launched w ++ map cmd tasks.
Proof using worker_launches.
  unfold gather.
  pose proof (drain_launches (order ++ seq 0 (length tasks))
                (replicate (length tasks) None) w) as Hperm.
  rewrite pending_replicate in Hperm.
  assert (pending tasks
            (drain worker tasks (order ++ seq 0 (length tasks))
               (replicate (length tasks) None) w).1 = []) as Hdone.
  { apply pending_filled. intros i Hi. rewrite drain_app.
    apply drain_seq_filled; [|lia|lia].
    by rewrite drain_length, length_replicate. }
  rewrite Hdone, app_nil_r in Hperm.
  by destruct (drain worker tasks _ _ w) as [slots w'].
Qed.
End PoolLaunches.

(** X4: a fan-out invokes every requested provider exactly once: the
    processes it launches are, in some order, the command lines of the
    providers of the request, one each (no retry, none skipped), and apart
    from that it only reads the clock once per provider. *)
Theorem ask_providers_parallel_launches_each_once env providers prompt w :
  exists out L,
    ask_providers_parallel env providers prompt w
    = (Ret out,
       set_ticks (ticks w + length providers) (set_launched (launched w ++ L) w))
    /\ L ≡ₚ map (fun p => tgpt_cmd env p prompt) providers.
Proof.
  destruct (ask_providers_parallel_run env providers prompt w) as (L & Hrun & _).
  do 2 eexists. split; [exact Hrun|].
  assert (launched (ask_providers_parallel env providers prompt w).2
          = launched w ++ L) as Hl by (by rewrite Hrun).
  assert (launched (ask_providers_parallel env providers prompt w).2
          ≡ₚ launched w ++ map (fun p => tgpt_cmd env p prompt) providers) as Hp.
  { pose proof (gather_launches (fun p => run_tgpt_blocking env p prompt) providers
                  (fun p => tgpt_cmd env p prompt)
                  (fun p w0 => f_equal launched
                                 (run_tgpt_blocking_world env p prompt w0))
                  (finish_order env) w) as Hperm.
    unfold ask_providers_parallel, ask_providers_parallel_with.
    destruct (gather _ providers _ w) as [results w1]. cbn [snd] in Hperm.
    by rewrite collect_replies_run. }
  rewrite Hl in Hp. by apply Permutation_app_inv_l in Hp.
Qed.

(** ** The session recorder, continued *)

Lemma set_db_same w db :
  db_conn w = Some db -> db_fault db = None ->
  set_db (Some (mkDb (conversations db) None)) w = w.
Proof.
  intros Hconn Hfault. destruct w as [use conn fs out cmds t], db as [rows fault].
  simpl in *. by subst.
Qed.

Lemma map_take {X Y} (f : X -> Y) n (l : list X) :
  map f (take n l) = take n (map f l).
Proof. revert n. induction l as [|x l IH]; intros [|n]; simpl; [done..|]. by rewrite IH. Qed.

(** With a working connection a fetch reads the first [limit] items of the
    session and leaves the world as it is. *)
Lemma fetch_history_healthy session_id limit w db :
  USE_DB w = true -> db_conn w = Some db -> db_fault db = None ->
  fetch_history session_id limit w
  = (Ret (take limit (session_items (conversations db) session_id)), w).
Proof.
  intros Huse Hconn Hfault.
  unfold fetch_history, bind, get_world, try_except, cursor, execute, sql_select, ret.
  rewrite Huse. cbn [negb]. rewrite !Hconn, Hfault.
  rewrite (set_db_same w db) by done.
  unfold session_items. by rewrite map_take.
Qed.

(** Every world is disabled, failing or healthy. *)
Lemma storage_cases w :
  USE_DB w = false
  \/ (exists e, USE_DB w = true /\ storage_error w = Some e)
  \/ (exists db, USE_DB w = true /\ db_conn w = Some db /\ db_fault db = None).
Proof.
  unfold storage_error. destruct (USE_DB w); [|by left]. right.
  destruct (db_conn w) as [db|]; [|left; by eexists].
  destruct (db_fault db) as [e|] eqn:Hfault; [left; by eexists|].
  right. by exists db.
Qed.

Lemma session_items_app rows1 rows2 session_id :
  session_items (rows1 ++ rows2) session_id
  = session_items rows1 session_id ++ session_items rows2 session_id.
Proof. unfold session_items. by rewrite filter_app, map_app. Qed.




Lemma clear_history_healthy session_id w db :
  db_conn w = Some db -> db_fault db = None ->
  clear_history session_id w
  = (Ret history_cleared,
     set_db (Some (mkDb (filter (fun r => Some (row_session_id r) <> session_id)
                                (conversations db)) None)) w).
Proof.
  intros Hconn Hfault.
  unfold clear_history, bind, try_except, cursor, execute, sql_delete, ret.
  by rewrite !Hconn, Hfault.
Qed.

Lemma filter_all {X} (P : X -> Prop) `{!forall x, Decision (P x)} (l : list X) :
  (forall x, x ∈ l -> P x) -> filter P l = l.
Proof.
  induction l as [|x l IH]; intros Hall; [done|].
  rewrite filter_cons_True by (apply Hall; left). f_equal.
  apply IH. intros y Hy. apply Hall. by right.
Qed.

Lemma filter_none {X} (P : X -> Prop) `{!forall x, Decision (P x)} (l : list X) :
  (forall x, x ∈ l -> ~ P x) -> filter P l = [].
Proof.
  induction l as [|x l IH]; intros Hall; [done|].
  rewrite filter_cons_False by (apply Hall; left).
  apply IH. intros y Hy. apply Hall. by right.
Qed.



(** X8: a /clear-history request without a session identifier deletes
    nothing and still reports success: the missing field reaches the
    statement as NULL, which equals no row's session. *)
Theorem clear_history_without_session w db :
  db_conn w = Some db -> db_fault db = None ->
  clear_history None w = (Ret history_cleared, w).
Proof.
  intros Hconn Hfault. rewrite (clear_history_healthy _ _ db) by done.
  rewrite filter_all by done. by rewrite set_db_same.
Qed.

Lemma clear_history_without_session_sample :
  clear_history None world_on = (Ret history_cleared, world_on).
Proof.
  apply (clear_history_without_session world_on (mkDb [] None)); reflexivity.
Defined.

(** ** Trimming *)

Lemma lstrip_blank s : Forall (fun c => is_space c = true) s -> lstrip s = [].
Proof. induction 1 as [|c s Hc _ IH]; simpl; [done|]. by rewrite Hc. Qed.

Lemma strip_blank s : Forall (fun c => is_space c = true) s -> strip s = [].
Proof. intros Hs. unfold strip. by rewrite lstrip_blank. Qed.

Lemma lstrip_keeps s :
  (forall c, head s = Some c -> is_space c = false) -> lstrip s = s.
Proof. destruct s as [|c s]; [done|]. intros H. simpl. by rewrite (H c). Qed.

Lemma head_rev {X} (l : list X) : head (rev l) = last l.
Proof. rewrite <- head_reverse. unfold reverse. by rewrite <- rev_alt. Qed.

(** A string that neither starts nor ends with whitespace is left alone. *)
Lemma strip_keeps s :
  (forall c, head s = Some c -> is_space c = false) ->
  (forall c, last s = Some c -> is_space c = false) ->
  strip s = s.
Proof.
  intros Hhead Hlast. unfold strip, rstrip. rewrite (lstrip_keeps s) by done.
  rewrite lstrip_keeps; [apply rev_involutive|].
  intros c. rewrite head_rev. apply Hlast.
Qed.

(** ** The dataset exporter, continued *)

Lemma replace_char_absent a b s : a <> b -> a ∉ replace_char a b s.
Proof.
  intros Hab Hin. unfold replace_char in Hin.
  apply list_elem_of_In, in_map_iff in Hin as (c & Hc & _).
  destruct (N.eqb_spec c a); congruence.
Qed.

Lemma replace_char_id a b s : a ∉ s -> replace_char a b s = s.
Proof.
  unfold replace_char. induction s as [|c s IH]; intros Hs; simpl; [done|].
  apply not_elem_of_cons in Hs as [Hc Hs].
  destruct (N.eqb_spec c a); [congruence|]. by rewrite IH.
Qed.

Lemma uint_codes_digits d :
  Forall (fun c => is_space c = false /\ c <> 47%N) (uint_codes d).
Proof. induction d; simpl; constructor; done. Qed.

Lemma generated_name_kept n :
  replace_char 47 95 (strip (lit "dataset_" ++ str_of_N n))
  = lit "dataset_" ++ str_of_N n.
Proof.
  pose proof (uint_codes_digits (N.to_uint n)) as Hdigits.
  fold (str_of_N n) in Hdigits.
  rewrite strip_keeps.
  - apply replace_char_id. rewrite not_elem_of_app. split.
    + vm_compute. intros H.
      repeat (apply elem_of_cons in H as [H|H]; [discriminate H|]).
      by apply elem_of_nil in H.
    + intros Hin. eapply Forall_forall in Hdigits as [_ Hne]; [|exact Hin]. done.
  - intros c Hc. vm_compute in Hc. by simplify_eq.
  - intros c. rewrite last_app. destruct (last (str_of_N n)) as [y|] eqn:Hlast.
    + intros [= <-]. apply last_Some_elem_of in Hlast.
      by eapply Forall_forall in Hdigits as [Hsp _].
    + vm_compute. by intros [= <-].
Qed.

(** X9: a dataset never leaves the dataset directory.  The path is the
    directory, a separator, a name without any path separator and the
    extension of the format (".csv" for "csv", ".json" for any other
    format).  A file name that is given is trimmed and its separators are
    replaced by underscores, without reading the clock; an empty file name
    becomes "dataset_" followed by the current time in seconds. *)
Theorem dataset_path_inside env filename fmt w :
  exists name w',
    dataset_path env filename fmt w
    = (Ret (DATASET_DIR env ++ lit "/" ++ name ++ dataset_ext fmt), w')
    /\ (47%N ∉ name)
    /\ (filename <> [] ->
        name = replace_char 47 95 (strip filename) /\ w' = w)
    /\ (filename = [] ->
        name = lit "dataset_" ++ str_of_N (epoch env (ticks w))
        /\ w' = set_ticks (S (ticks w)) w).
Proof.
  unfold dataset_path, bind, ret, dataset_ext.
  destruct filename as [|c rest]; cbn [truthy].
  - do 2 eexists. split; [done|]. split; [by apply replace_char_absent|].
    split; [done|]. intros _. split; [apply generated_name_kept|done].
  - do 2 eexists. split; [done|]. split; [by apply replace_char_absent|].
    split; [done|]. done.
Qed.

Lemma dataset_path_inside_sample :
  exists w',
    dataset_path sample_env (lit " ../etc/passwd ") (lit "json") world_off
    = (Ret (lit "/var/www/htdocs/datasets/.._etc_passwd.json"), w')
    /\ w' = world_off.
Proof.
  destruct (dataset_path_inside sample_env (lit " ../etc/passwd ") (lit "json")
              world_off) as (name & w' & Hrun & _ & Hgiven & _).
  destruct Hgiven as [-> ->]; [discriminate|].
  exists world_off. split; [exact Hrun|reflexivity].
Defined.

(** One export of a dialog: one reading of the clock, then the header (if
    the export created the destination, in the row format) and one record. *)
Lemma append_dataset_dialog_run env fp session_id fmt dialog_list w :
  append_dataset_dialog env fp session_id fmt dialog_list w
  = (Ret tt,
     set_files (<[fp := default [] (files w !! fp)
                        ++ dialog_header_if_new fmt (files w !! fp)
                        ++ dialog_record fmt session_id (clock env (ticks w))
                             dialog_list]> (files w))
               (set_ticks (S (ticks w)) w)).
Proof.
  unfold append_dataset_dialog, dialog_header_if_new, dialog_record.
  unfold bind at 1, _now_str.
  destruct (decide (fmt = lit "csv")) as [Hcsv|Hjson].
  - unfold bind, exists_, open_append, write, modify, ret. world_simpl.
    destruct (files w !! fp) as [old|] eqn:Hold.
    + rewrite bool_decide_eq_true_2 by done. world_simpl. rewrite Hold.
      by world_simpl.
    + rewrite bool_decide_eq_false_2 by (by intros [? ?]). world_simpl.
      rewrite !lookup_insert_eq. world_simpl.
      unfold set_files. world_simpl. by rewrite !insert_insert_eq, app_nil_l.
  - unfold bind, open_append, write, modify. world_simpl.
    destruct (files w !! fp) as [old|] eqn:Hold; world_simpl.
    + rewrite Hold. by world_simpl.
    + rewrite lookup_insert_eq. unfold set_files. world_simpl.
      by rewrite insert_insert_eq.
Qed.


(** ** JSON lines *)

Lemma json_escape_one_line c : Forall (fun x => x <> 10%N) (json_escape c).
Proof.
  unfold json_escape.
  destruct (c =? 34)%N; [repeat constructor; discriminate|].
  destruct (c =? 92)%N; [repeat constructor; discriminate|].
  destruct (N.eqb_spec c 10) as [->|Hc]; [repeat constructor; discriminate|].
  destruct (c =? 13)%N; [repeat constructor; discriminate|].
  destruct (c =? 9)%N; [repeat constructor; discriminate|].
  destruct (c =? 8)%N; [repeat constructor; discriminate|].
  destruct (c =? 12)%N; [repeat constructor; discriminate|].
  destruct (N.ltb_spec c 32) as [Hlt|_]; [|by repeat constructor].
  assert (forall d, (d < 16)%N -> hex_digit d <> 10%N) as Hhex.
  { intros d Hd. unfold hex_digit. destruct (d <? 10)%N; lia. }
  repeat (constructor; [discriminate|]).
  constructor; [apply Hhex, N.Div0.div_lt_upper_bound; lia|].
  constructor; [apply Hhex, N.mod_lt; lia|constructor].
Qed.

Lemma json_string_one_line s : Forall (fun x => x <> 10%N) (json_string s).
Proof.
  unfold json_string. apply Forall_app. split; [by repeat constructor|].
  apply Forall_app. split; [|by repeat constructor].
  induction s as [|c s IH]; simpl; [done|].
  apply Forall_app. split; [apply json_escape_one_line|done].
Qed.

Lemma lit_one_line_sep : Forall (fun x => x <> 10%N) (lit ", ").
Proof. vm_compute. by repeat constructor. Qed.

Lemma lit_one_line_colon : Forall (fun x => x <> 10%N) (lit ": ").
Proof. vm_compute. by repeat constructor. Qed.

(** No JSON text holds a line feed. *)
Lemma dumps_one_line j : Forall (fun x => x <> 10%N) (dumps j).
Proof.
  induction j as [|s|items IH|members IH] using json_induction.
  - vm_compute. by repeat constructor.
  - apply json_string_one_line.
  - cbn [dumps]. apply Forall_app. split; [vm_compute; by repeat constructor|].
    apply Forall_app. split; [|vm_compute; by repeat constructor].
    induction IH as [|x r Hx _ IHr]; [done|].
    apply Forall_app. split; [done|].
    destruct r; [done|]. apply Forall_app. split; [apply lit_one_line_sep|done].
  - cbn [dumps]. apply Forall_app. split; [vm_compute; by repeat constructor|].
    apply Forall_app. split; [|vm_compute; by repeat constructor].
    induction IH as [|[k v] r Hv _ IHr]; [done|].
    apply Forall_app. split; [apply json_string_one_line|].
    apply Forall_app. split; [apply lit_one_line_colon|].
    apply Forall_app. split; [done|].
    destruct r; [done|]. apply Forall_app. split; [apply lit_one_line_sep|done].
Qed.

(** X11: the JSON-lines encoding keeps its promise of one object per
    line.  Whatever the session identifier and the entry hold (line breaks
    included), the text written for an entry ends with a line feed and holds
    no other; the same goes for the record of a whole dialog. *)
Theorem json_records_are_single_lines session_id :
  (forall e,
      exists text,
        json_line session_id e = text ++ [10%N]
        /\ Forall (fun c => c <> 10%N) text)
  /\ (forall fmt saved_at dialog_list,
        fmt <> lit "csv" ->
        exists text,
          dialog_record fmt session_id saved_at dialog_list = text ++ [10%N]
          /\ Forall (fun c => c <> 10%N) text).
Proof.
  split.
  - intros e. unfold json_line. eexists. split; [done|apply dumps_one_line].
  - intros fmt saved_at dialog_list Hfmt. unfold dialog_record.
    destruct (decide _); [done|].
    eexists. split; [done|apply dumps_one_line].
Qed.

Lemma json_records_are_single_lines_sample :
  exists text,
    dialog_record (lit "json") (lit "s1") (lit "t0") [JStr [10%N]] = text ++ [10%N]
    /\ Forall (fun c => c <> 10%N) text.
Proof.
  apply (proj2 (json_records_are_single_lines (lit "s1")) (lit "json") (lit "t0")
           [JStr [10%N]]).
  vm_compute. discriminate.
Defined.

(** ** The brainstorm prompt *)

Lemma last12_short {X} (l : list X) : length l <= 12 -> last12 l = l.
Proof. intros H. unfold last12. by replace (length l - 12) with 0 by lia. Qed.

Lemma last12_app {X} (older recent : list X) :
  12 <= length recent -> last12 (older ++ recent) = last12 recent.
Proof.
  intros H. unfold last12. rewrite length_app, drop_app.
  rewrite drop_ge by lia. simpl. f_equal. lia.
Qed.

Lemma length_last12 {X} (l : list X) : length (last12 l) <= 12.
Proof. unfold last12. rewrite length_drop. lia. Qed.

Lemma prompt_lines_app l1 l2 :
  prompt_lines (l1 ++ l2) = prompt_lines l1 ++ prompt_lines l2.
Proof.
  induction l1 as [|m l1 IH]; simpl; [done|].
  destruct (truthy _); simpl; by rewrite IH.
Qed.

Lemma length_prompt_lines l : length (prompt_lines l) <= length l.
Proof.
  induction l as [|m l IH]; simpl; [done|].
  destruct (truthy _); simpl; lia.
Qed.



(** X13: a message without a reply, or whose reply is blank, leaves no
    trace in the prompt: among at most twelve messages, removing it gives
    the same prompt. *)
Theorem build_brainstorm_prompt_skips_blank before m after :
  length (before ++ m :: after) <= 12 ->
  strip (default [] (m_reply m)) = [] ->
  build_brainstorm_prompt (before ++ m :: after)
  = build_brainstorm_prompt (before ++ after).
Proof.
  intros Hlen Hblank. unfold build_brainstorm_prompt.
  rewrite !last12_short; [|rewrite length_app in *; simpl in *; lia|done].
  rewrite !prompt_lines_app. simpl. by rewrite Hblank.
Qed.

Lemma build_brainstorm_prompt_skips_blank_sample :
  build_brainstorm_prompt
    [mkMessage (Some (lit "sky")) (Some (lit "idea"));
     mkMessage (Some (lit "kimi")) (Some [32; 10]%N)]
  = build_brainstorm_prompt [mkMessage (Some (lit "sky")) (Some (lit "idea"))].
Proof.
  apply (build_brainstorm_prompt_skips_blank
           [mkMessage (Some (lit "sky")) (Some (lit "idea"))]
           (mkMessage (Some (lit "kimi")) (Some [32; 10]%N)) []).
  - simpl. lia.
  - reflexivity.
Defined.

(** ** The handlers, continued *)

Lemma group_not_valid : lit "group" ∉ VALID_PROVIDERS.
Proof.
  vm_compute. intros H.
  repeat (apply elem_of_cons in H as [H|H]; [discriminate H|]).
  by apply elem_of_nil in H.
Qed.

(** A non-empty list of valid providers is resolved to itself. *)
Lemma resolve_providers_valid_list providers :
  providers <> [] ->
  Forall (fun p => p ∈ VALID_PROVIDERS) providers ->
  resolve_providers (Some providers) = providers.
Proof.
  intros Hne Hvalid. unfold resolve_providers.
  destruct providers as [|p ps]; [done|].
  assert (p <> lit "group") as Hp.
  { intros ->. apply Forall_cons in Hvalid as [Hg _]. by apply group_not_valid. }
  rewrite bool_decide_eq_false_2 by congruence.
  rewrite (bool_decide_eq_false_2 (_ !! 0 = _)) by (simpl; congruence).
  rewrite andb_false_r. cbn [orb].
  rewrite filter_all by (intros x Hx; by eapply Forall_forall in Hvalid).
  by rewrite bool_decide_eq_false_2.
Qed.



(** X15: a query that is missing or holds only whitespace is an empty
    query.  Without an uploaded file /ask rejects it with the "empty query"
    error and does nothing else: no row is written, no process is launched,
    no file is touched. *)
Theorem ask_blank_query_rejected env request w :
  Forall (fun c => is_space c = true) (default [] (form_query request)) ->
  has_file request = false ->
  ask env request w
  = (Ret (jsonify_status (JObj [(lit "error", JStr (lit "empty query"))]) 200), w).
Proof.
  intros Hblank Hfile. rewrite ask_unfold. cbv zeta.
  assert (req_query request = []) as ->.
  { unfold req_query, opt_or. destruct (form_query request) as [q|]; [|done].
    rewrite py_or_empty. by apply strip_blank. }
  by rewrite Hfile.
Qed.

Lemma ask_blank_query_rejected_sample :
  ask sample_env
    (mkAsk None (Some (lit "sky")) (Some [32; 9; 10]%N) None None None None false)
    world_on
  = (Ret (jsonify_status (JObj [(lit "error", JStr (lit "empty query"))]) 200),
     world_on).
Proof.
  apply (ask_blank_query_rejected sample_env
           (mkAsk None (Some (lit "sky")) (Some [32; 9; 10]%N) None None None None
              false) world_on).
  - repeat constructor.
  - reflexivity.
Defined.

(** ** What the handlers leave in the table *)

Section Preserves.
Context {X : Type}.
Variable f : World -> X.
Hypothesis f_ticks : forall n w, f (set_ticks n w) = f w.
Hypothesis f_files : forall fs w, f (set_files fs w) = f w.
Hypothesis f_printed : forall out w, f (set_printed out w) = f w.

Lemma preserves_ret {A} (a : A) : preserves f (ret a).
Proof. by intros w. Qed.

Lemma preserves_bind {A B} (m : M A) (k : A -> M B) :
  preserves f m -> (forall a, preserves f (k a)) -> preserves f (bind m k).
Proof.
  intros Hm Hk w. unfold bind. specialize (Hm w).
  destruct (m w) as [[a|e] w']; simpl in *; [|done].
  by rewrite Hk.
Qed.

Lemma preserves_try {A} (body : M A) (handler : PyException -> M A) :
  preserves f body -> (forall e, preserves f (handler e)) ->
  preserves f (try_except body handler).
Proof.
  intros Hb Hh w. unfold try_except. specialize (Hb w).
  destruct (body w) as [[a|e] w']; simpl in *; [done|].
  by rewrite Hh.
Qed.

Lemma preserves_get_world : preserves f get_world.
Proof. by intros w. Qed.

Lemma preserves_now env : preserves f (_now_str env).
Proof using f_ticks. intros w. apply f_ticks. Qed.

Lemma preserves_print line : preserves f (print line).
Proof using f_printed. intros w. apply f_printed. Qed.

Lemma preserves_exists fp : preserves f (exists_ fp).
Proof. by intros w. Qed.

Lemma preserves_open_append fp : preserves f (open_append fp).
Proof using f_files.
  intros w. unfold open_append, modify. cbn [snd].
  destruct (files w !! fp); [done|apply f_files].
Qed.

Lemma preserves_write fp text : preserves f (write fp text).
Proof using f_files. intros w. apply f_files. Qed.

Lemma preserves_append_dataset_lines fp session_id fmt entries :
  preserves f (append_dataset_lines fp session_id fmt entries).
Proof using f_files. intros w. rewrite append_dataset_lines_run. apply f_files. Qed.

Lemma preserves_append_dataset_dialog env fp session_id fmt dialog_list :
  preserves f (append_dataset_dialog env fp session_id fmt dialog_list).
Proof using f_files f_ticks.
  intros w. rewrite append_dataset_dialog_run. cbn [snd].
  by rewrite f_files, f_ticks.
Qed.

Lemma preserves_dataset_path env filename fmt :
  preserves f (dataset_path env filename fmt).
Proof using f_ticks.
  unfold dataset_path. apply preserves_bind; [|intros; apply preserves_ret].
  destruct (truthy filename); [apply preserves_ret|]. intros w. apply f_ticks.
Qed.

(** The optional dataset save keeps whatever a fetch keeps. *)
Lemma preserves_dataset_save env save_dataset filename save_format save_shape
    session_id entries :
  (forall sid n, preserves f (fetch_history sid n)) ->
  preserves f (dataset_save env save_dataset filename save_format save_shape
                 session_id entries).
Proof using f_files f_ticks.
  intros Hfetch. unfold dataset_save.
  destruct save_dataset; [|apply preserves_ret].
  apply preserves_bind; [apply preserves_dataset_path|]. intros fp.
  apply preserves_bind; [|intros; apply preserves_ret].
  destruct (decide _); [|apply preserves_append_dataset_lines].
  apply preserves_bind; [apply preserves_get_world|]. intros w0.
  apply preserves_bind; [|intros; apply preserves_append_dataset_dialog].
  destruct (USE_DB w0); [|apply preserves_ret].
  apply preserves_bind; [apply Hfetch|intros; apply preserves_ret].
Qed.
End Preserves.

Lemma fetch_history_keeps_db session_id limit :
  preserves db_conn (fetch_history session_id limit).
Proof.
  intros w.
  destruct (storage_cases w) as [Hoff|[(e & Huse & Herr)|(db & Huse & Hconn & Hfault)]].
  - by rewrite fetch_history_disabled.
  - by rewrite (fetch_history_failing _ _ _ e).
  - by rewrite (fetch_history_healthy _ _ _ db).
Qed.

Lemma fetch_history_keeps_flag session_id limit :
  preserves USE_DB (fetch_history session_id limit).
Proof.
  intros w.
  destruct (storage_cases w) as [Hoff|[(e & Huse & Herr)|(db & Huse & Hconn & Hfault)]].
  - by rewrite fetch_history_disabled.
  - by rewrite (fetch_history_failing _ _ _ e).
  - by rewrite (fetch_history_healthy _ _ _ db).
Qed.

Lemma dataset_save_keeps_db env save_dataset filename save_format save_shape
    session_id entries :
  preserves db_conn (dataset_save env save_dataset filename save_format save_shape
                       session_id entries).
Proof. apply preserves_dataset_save; try done. apply fetch_history_keeps_db. Qed.

Lemma dataset_save_keeps_flag env save_dataset filename save_format save_shape
    session_id entries :
  preserves USE_DB (dataset_save env save_dataset filename save_format save_shape
                      session_id entries).
Proof. apply preserves_dataset_save; try done. apply fetch_history_keeps_flag. Qed.

(** With a working storage, recording the replies appends one row per
    reply, in order, and the storage keeps working. *)
Lemma save_replies_healthy env session_id mtype replies w db :
  USE_DB w = true -> db_conn w = Some db -> db_fault db = None ->
  exists entries rows w',
    save_replies env session_id mtype replies w = (Ret entries, w')
    /\ USE_DB w' = true
    /\ db_conn w' = Some (mkDb (conversations db ++ rows) None)
    /\ map row_key rows
       = map (fun r => (session_id, provider r, reply r, mtype)) replies.
Proof.
  revert w db. induction replies as [|item rest IH]; intros w db Huse Hconn Hfault.
  - exists [], [], w. split; [done|]. split; [done|]. split; [|done].
    rewrite app_nil_r. rewrite Hconn. f_equal.
    destruct db; simpl in *. by subst.
  - cbn [save_replies]. cbv zeta. unfold bind at 1.
    rewrite (save_to_db_healthy _ _ _ _ _ _ db) by done.
    set (row := mkRow _ _ _ _ _). set (w1 := set_db _ _).
    destruct (IH w1 (mkDb (conversations db ++ [row]) None))
      as (entries & rows & w' & Hrun & Huse' & Hconn' & Hrows); [done..|].
    unfold bind at 1. rewrite Hrun.
    exists (mkEntry (provider item) (reply item) (timestamp item) (Some mtype)
            :: entries), (row :: rows), w'.
    split; [done|]. split; [done|]. split.
    + rewrite Hconn'. cbn [conversations]. by rewrite <- app_assoc.
    + cbn [map]. by rewrite Hrows.
Qed.

(** /ask past its early returns, on a working storage: one "bot" row per
    reply of the response. *)
Lemma answer_records env session_id query save_dataset filename save_format
    save_shape providers w db :
  USE_DB w = true -> db_conn w = Some db -> db_fault db = None ->
  exists r w' rows,
    answer env session_id query save_dataset filename save_format save_shape
           providers w = (Ret r, w')
    /\ map fst (replies_of r) = providers
    /\ USE_DB w' = true
    /\ db_conn w' = Some (mkDb (conversations db ++ rows) None)
    /\ map row_key rows
       = map (fun pr => (session_id, pr.1, pr.2, lit "bot")) (replies_of r).
Proof.
  intros Huse Hconn Hfault. unfold answer. cbv zeta. unfold bind at 1.
  destruct (ask_providers_parallel_run env providers (ask_prompt query) w)
    as (L & -> & _).
  assert (map fst (contents (stamped env (ticks w)
            (map (fun p => (p, (run_tgpt_blocking env p (ask_prompt query) w).1))
                 providers))) = providers) as Hproviders.
  { rewrite contents_stamped, !map_map. apply map_id. }
  revert Hproviders.
  generalize (stamped env (ticks w)
                (map (fun p => (p, (run_tgpt_blocking env p (ask_prompt query) w).1))
                     providers)).
  intros out Hproviders. set (w1 := set_ticks _ _).
  destruct (save_replies_healthy env session_id (lit "bot") out w1 db)
    as (entries & rows & w2 & Hrun & Huse2 & Hconn2 & Hrows); [done..|].
  unfold bind at 1. rewrite Hrun. unfold bind at 1.
  pose proof (dataset_save_keeps_db env save_dataset filename save_format
                save_shape session_id entries w2) as Hkeep.
  pose proof (dataset_save_keeps_flag env save_dataset filename save_format
                save_shape session_id entries w2) as Hflag.
  destruct (returns_run _ w2
              (returns_dataset_save env save_dataset filename save_format
                 save_shape session_id entries)) as (saved & w3 & Hsave).
  rewrite Hsave in Hkeep, Hflag |- *. cbn [snd] in Hkeep, Hflag.
  exists (ask_response out saved), w3, rows.
  split; [unfold ask_response; by destruct out as [|r [|r' rest]]|].
  rewrite replies_of_ask_response. split; [done|].
  split; [congruence|]. split; [congruence|].
  rewrite Hrows. unfold contents. by rewrite map_map.
Qed.

(** An accepted /ask on a working storage: the rows it appends, and the
    storage it leaves. *)
Lemma ask_exchange env request w db :
  USE_DB w = true -> db_conn w = Some db -> db_fault db = None ->
  req_query request <> [] ->
  req_provider request = lit "group" \/ req_provider request ∈ VALID_PROVIDERS ->
  exists r w' rows,
    ask env request w = (Ret r, w')
    /\ map fst (replies_of r) = asked_providers request
    /\ USE_DB w' = true
    /\ db_conn w' = Some (mkDb (conversations db ++ rows) None)
    /\ map row_key rows
       = (req_session_id request, lit "user", req_query request, lit "user")
         :: map (fun pr => (req_session_id request, pr.1, pr.2, lit "bot"))
                (replies_of r).
Proof.
  intros Huse Hconn Hfault Hquery Hprovider.
  rewrite ask_unfold. cbv zeta. unfold asked_providers.
  apply truthy_true in Hquery. rewrite Hquery. cbn [negb andb].
  rewrite (save_to_db_healthy _ _ _ _ _ _ db) by done. cbn [snd].
  set (row := mkRow _ _ _ _ _). set (w1 := set_db _ _).
  assert (forall sd fn sf ss providers,
    exists r w' rows,
      answer env (req_session_id request) (req_query request) sd fn sf ss
             providers w1 = (Ret r, w')
      /\ map fst (replies_of r) = providers
      /\ USE_DB w' = true
      /\ db_conn w' = Some (mkDb (conversations db ++ rows) None)
      /\ map row_key rows
         = (req_session_id request, lit "user", req_query request, lit "user")
           :: map (fun pr => (req_session_id request, pr.1, pr.2, lit "bot"))
                  (replies_of r)) as Hanswer.
  { intros sd fn sf ss providers.
    destruct (answer_records env (req_session_id request) (req_query request)
                sd fn sf ss providers w1 (mkDb (conversations db ++ [row]) None))
      as (r & w' & rows & Hrun & Hprov & Huse' & Hconn' & Hrows); [done..|].
    exists r, w', (row :: rows). split; [done|]. split; [done|]. split; [done|].
    split.
    - rewrite Hconn'. cbn [conversations]. by rewrite <- app_assoc.
    - cbn [map]. by rewrite Hrows. }
  destruct (decide (req_provider request = lit "group")) as [Hgroup|Hne];
    [apply Hanswer|].
  destruct Hprovider as [?|Hvalid]; [done|].
  rewrite bool_decide_eq_true_2 by done. apply Hanswer.
Qed.



(** ** /history *)

(** X17: /history validates its session identifier.  A missing or blank
    identifier is answered with "session_id required" and status 400,
    without touching the storage or anything else; any other identifier is
    answered with status 200 and at most 500 items, the connection left as
    it was, and with no item at all when the storage is disabled. *)
Theorem history_validates_session args_session_id w :
  (Forall (fun c => is_space c = true) (default [] args_session_id) ->
   history args_session_id w = (Ret session_id_required, w))
  /\ (strip (default [] args_session_id) <> [] ->
      exists items w',
        history args_session_id w = (Ret (history_response items), w')
        /\ length items <= 500
        /\ db_conn w' = db_conn w
        /\ (USE_DB w = false -> items = [] /\ w' = w)).
Proof.
  split.
  - intros Hblank. unfold history. by rewrite strip_blank.
  - intros Hsid. unfold history. apply truthy_true in Hsid. rewrite Hsid.
    cbn [negb]. unfold bind at 1, get_world. unfold bind at 1.
    destruct (storage_cases w)
      as [Hoff|[(e & Huse & Herr)|(db & Huse & Hconn & Hfault)]].
    + rewrite Hoff. exists [], w. split; [done|]. split; [simpl; lia|]. done.
    + rewrite Huse, (fetch_history_failing _ _ _ e) by done.
      do 2 eexists. split; [done|]. split; [simpl; lia|]. split; [done|].
      congruence.
    + rewrite Huse, (fetch_history_healthy _ _ _ db) by done.
      do 2 eexists. split; [done|]. split; [rewrite length_take; lia|].
      split; [done|]. congruence.
Qed.

Lemma history_validates_session_blank :
  history (Some [32; 32]%N) world_on = (Ret session_id_required, world_on).
Proof.
  apply (proj1 (history_validates_session (Some [32; 32]%N) world_on)).
  repeat constructor.
Defined.

Lemma map_row_items rows :
  map item_key
      (map (fun r => mkHist (row_provider r) (row_message r) (row_timestamp r)) rows)
  = map (fun k => (k.1.1.2, k.1.2)) (map row_key rows).
Proof. induction rows as [|r rows IH]; simpl; [done|]. by rewrite IH. Qed.

Lemma rows_of_session rows (keys : list (pystr * pystr * pystr * pystr)) sid :
  map row_key rows = keys ->
  Forall (fun k => k.1.1.1 = sid) keys ->
  filter (fun r => row_session_id r = sid) rows = rows.
Proof.
  intros <- Hall. apply filter_all. intros r Hr.
  eapply Forall_forall in Hall; [|by apply list_elem_of_In, in_map, list_elem_of_In].
  done.
Qed.



(** * The IRC bridge *)

(** ** Splitting a reply into messages *)

Lemma split_on_nonempty sep s : IrcBot.split_on sep s <> [].
Proof.
  induction s as [|c s IH]; simpl; [done|].
  destruct (c =? sep)%N; [done|]. by destruct (IrcBot.split_on sep s).
Qed.

Lemma concat_split_on sep s :
  concat (IrcBot.split_on sep s) = filter (fun c => c <> sep) s.
Proof.
  induction s as [|c s IH]; simpl; [done|].
  destruct (N.eqb_spec c sep) as [->|Hne].
  - rewrite filter_cons_False by (intros H; by apply H). done.
  - rewrite filter_cons_True by done. rewrite <- IH.
    pose proof (split_on_nonempty sep s).
    by destruct (IrcBot.split_on sep s).
Qed.

Lemma split_on_pieces sep s :
  Forall (fun piece => sep ∉ piece) (IrcBot.split_on sep s).
Proof.
  induction s as [|c s IH]; simpl.
  - constructor; [apply not_elem_of_nil|constructor].
  - destruct (N.eqb_spec c sep) as [->|Hne].
    + constructor; [apply not_elem_of_nil|done].
    + destruct (IrcBot.split_on sep s) as [|cur rest].
      * constructor; [|constructor]. apply not_elem_of_cons. split; [done|].
        apply not_elem_of_nil.
      * apply Forall_cons in IH as [Hcur Hrest]. constructor; [|done].
        apply not_elem_of_cons. by split.
Qed.

(** The number of chunks of a line covers the line, and every chunk starts
    inside it. *)
Lemma chunk_count n :
  n <= (n + IrcBot.IRC_MAX_LINE - 1) / IrcBot.IRC_MAX_LINE * IrcBot.IRC_MAX_LINE
  /\ forall k, k < (n + IrcBot.IRC_MAX_LINE - 1) / IrcBot.IRC_MAX_LINE ->
               k * IrcBot.IRC_MAX_LINE < n.
Proof.
  unfold IrcBot.IRC_MAX_LINE.
  pose proof (Nat.div_mod_eq (n + 400 - 1) 400) as Hdiv.
  pose proof (Nat.mod_upper_bound (n + 400 - 1) 400) as Hmod.
  set (m := (n + 400 - 1) / 400) in *. set (r := (n + 400 - 1) mod 400) in *.
  split; [lia|]. intros k Hk. nia.
Qed.

Lemma concat_chunks_from (l : pystr) s k m :
  concat (map (fun start => take s (drop start l)) (map (fun i => i * s) (seq k m)))
  = take (m * s) (drop (k * s) l).
Proof.
  revert k. induction m as [|m IH]; intros k; [done|].
  cbn [seq map concat]. rewrite IH.
  replace (S k * s) with (k * s + s) by lia. rewrite <- drop_drop.
  by rewrite take_take_drop.
Qed.

Lemma concat_chunk_line line : concat (IrcBot.chunk_line line) = line.
Proof.
  unfold IrcBot.chunk_line, IrcBot.range_step. rewrite concat_chunks_from.
  simpl drop. apply take_ge. apply chunk_count.
Qed.

Lemma chunk_line_spec line chunk :
  chunk ∈ IrcBot.chunk_line line ->
  1 <= length chunk <= IrcBot.IRC_MAX_LINE /\ forall c, c ∈ chunk -> c ∈ line.
Proof.
  unfold IrcBot.chunk_line, IrcBot.range_step. intros Hin.
  apply list_elem_of_In, in_map_iff in Hin as (start & <- & Hstart).
  apply in_map_iff in Hstart as (k & <- & Hk).
  apply in_seq in Hk as [_ Hk]. simpl in Hk.
  destruct (chunk_count (length line)) as [_ Hinside]. specialize (Hinside k Hk).
  split.
  - rewrite length_take, length_drop. unfold IrcBot.IRC_MAX_LINE in *. lia.
  - intros c Hc. by apply subseteq_take, subseteq_drop in Hc.
Qed.

Lemma reply_chunks_spec reply chunk :
  chunk ∈ IrcBot.reply_chunks reply ->
  exists line,
    line ∈ IrcBot.split_on 10 (filter (fun c => c <> 13%N) reply)
    /\ chunk ∈ IrcBot.chunk_line line.
Proof.
  unfold IrcBot.reply_chunks. intros Hin.
  apply list_elem_of_In, in_concat in Hin as (chunks & Hchunks & Hin).
  apply in_map_iff in Hchunks as (line & <- & Hline).
  exists line. split; by apply list_elem_of_In.
Qed.



(** X20: splitting loses nothing but the line breaks.  The chunks of a
    reply, put end to end, are the reply without its carriage returns and
    line feeds, in the same order. *)
Theorem reply_chunks_keep_text reply :
  concat (IrcBot.reply_chunks reply)
  = filter (fun c => c <> 10%N) (filter (fun c => c <> 13%N) reply).
Proof.
  unfold IrcBot.reply_chunks. rewrite <- (concat_split_on 10).
  induction (IrcBot.split_on 10 (filter (fun c => c <> 13%N) reply))
    as [|line lines IH]; [done|].
  cbn [map concat]. by rewrite concat_app, concat_chunk_line, IH.
Qed.

(** ** The bridge at work *)

Lemma bot_world_eta w :
  IrcBot.mkBot (IrcBot.db_conn w) (IrcBot.sent w) (IrcBot.printed w)
               (IrcBot.posted w) (IrcBot.ticks w) = w.
Proof. by destruct w. Qed.

Lemma send_chunks_accepting env target line starts w :
  IrcBot.accepting env ->
  IrcBot.send_chunks env target line starts w
  = (Ret tt,
     IrcBot.mkBot (IrcBot.db_conn w)
       (IrcBot.sent w
        ++ map (fun start => (target, take IrcBot.IRC_MAX_LINE (drop start line)))
               starts)
       (IrcBot.printed w) (IrcBot.posted w) (IrcBot.ticks w)).
Proof.
  intros Hacc. revert w. induction starts as [|start rest IH]; intros w.
  - simpl. unfold IrcBot.ret. by rewrite app_nil_r, bot_world_eta.
  - cbn [IrcBot.send_chunks]. unfold IrcBot.bind, IrcBot.privmsg.
    rewrite Hacc, IH. cbn [map]. simpl. by rewrite <- app_assoc.
Qed.

Lemma send_lines_accepting env target lines w :
  IrcBot.accepting env ->
  IrcBot.send_lines env target lines w
  = (Ret tt,
     IrcBot.mkBot (IrcBot.db_conn w)
       (IrcBot.sent w
        ++ map (pair target) (concat (map IrcBot.chunk_line lines)))
       (IrcBot.printed w) (IrcBot.posted w) (IrcBot.ticks w)).
Proof.
  intros Hacc. revert w. induction lines as [|line rest IH]; intros w.
  - simpl. unfold IrcBot.ret. by rewrite app_nil_r, bot_world_eta.
  - cbn [IrcBot.send_lines]. unfold IrcBot.bind.
    rewrite send_chunks_accepting, IH by done. simpl.
    rewrite map_app, <- app_assoc. unfold IrcBot.chunk_line at 2.
    by rewrite map_map.
Qed.

(** [save_fact] never raises; with a working database it appends the fact,
    stamped with the clock. *)
Lemma save_fact_run env session_id provider message mtype w :
  exists w',
    IrcBot.save_fact env session_id provider message mtype w = (Ret tt, w')
    /\ IrcBot.sent w' = IrcBot.sent w
    /\ IrcBot.posted w' = IrcBot.posted w
    /\ forall db,
        IrcBot.db_conn w = Some db -> IrcBot.memory_fault db = None ->
        IrcBot.db_conn w'
        = Some (IrcBot.mkMemory
                  (IrcBot.memory db
                   ++ [mkRow session_id provider message mtype
                             (IrcBot.bot_clock env (IrcBot.ticks w))]) None).
Proof.
  unfold IrcBot.save_fact.
  destruct (IrcBot.db_conn w) as [db|] eqn:Hconn.
  - unfold IrcBot.try_except, IrcBot.bind, IrcBot.now_str, IrcBot.execute,
      IrcBot.print, sql_insert. simpl. rewrite Hconn.
    destruct (IrcBot.memory_fault db) as [e|] eqn:Hfault.
    + eexists. split; [done|]. split; [done|]. split; [done|].
      intros db' [= <-]. congruence.
    + eexists. split; [done|]. split; [done|]. split; [done|].
      by intros db' [= <-] _.
  - exists w. split; [done|]. split; [done|]. split; [done|]. by intros db'.
Qed.

Lemma map_rev_list {X Y} (f : X -> Y) (l : list X) : map f (rev l) = rev (map f l).
Proof. apply map_rev. Qed.

(** [recall_facts] never raises and returns what is recalled. *)
Lemma recall_facts_run nick limit w :
  exists w',
    IrcBot.recall_facts nick limit w = (Ret (IrcBot.recalled w nick limit), w')
    /\ IrcBot.sent w' = IrcBot.sent w
    /\ IrcBot.posted w' = IrcBot.posted w
    /\ IrcBot.db_conn w' = IrcBot.db_conn w
    /\ IrcBot.ticks w' = IrcBot.ticks w.
Proof.
  unfold IrcBot.recall_facts, IrcBot.recalled.
  destruct (IrcBot.db_conn w) as [db|] eqn:Hconn; [|by exists w].
  unfold IrcBot.try_except, IrcBot.bind, IrcBot.execute, IrcBot.print, IrcBot.ret,
    IrcBot.sql_recall.
  rewrite Hconn. destruct (IrcBot.memory_fault db) as [e|] eqn:Hfault.
  - eexists. split; [done|]. done.
  - eexists. split.
    + unfold IrcBot.facts_of. by rewrite map_take, map_rev_list.
    + simpl. split; [done|]. split; [done|]. split; [|done].
      destruct db; simpl in *. by subst.
Qed.

(** The query of the payload: the memory context is present exactly when
    a fact is recalled. *)
Lemma truthy_join_fact_lines f rest :
  truthy (join [10%N] (map IrcBot.fact_line (f :: rest))) = true.
Proof.
  assert (exists c tail, IrcBot.fact_line f = c :: tail) as (c & tail & Hline).
  { unfold IrcBot.fact_line. change (lit ": ") with [58; 32]%N.
    destruct (IrcBot.fact_provider f); by eexists _, _. }
  cbn [map join]. rewrite Hline. by destruct (map IrcBot.fact_line rest).
Qed.

Lemma full_query_with user_msg window :
  (if truthy (join [10%N] (map IrcBot.fact_line window))
   then user_msg ++ [10; 10]%N ++ lit "Memory context:" ++ [10%N]
        ++ join [10%N] (map IrcBot.fact_line window)
   else user_msg)
  = IrcBot.query_with user_msg window.
Proof.
  destruct window as [|f rest]; [done|].
  by rewrite truthy_join_fact_lines.
Qed.

(** The handler of [handle_message]: it reports the exception on IRC. *)
Lemma handler_accepting env target ex w :
  IrcBot.accepting env ->
  (IrcBot.bind (IrcBot.print (lit "[DEBUG] Exception: " ++ exc_str ex))
     (fun _ => IrcBot.privmsg env target (lit "Error: " ++ exc_str ex))) w
  = (Ret tt,
     IrcBot.mkBot (IrcBot.db_conn w)
       (IrcBot.sent w ++ [(target, lit "Error: " ++ exc_str ex)])
       (IrcBot.printed w ++ [lit "[DEBUG] Exception: " ++ exc_str ex])
       (IrcBot.posted w) (IrcBot.ticks w)).
Proof.
  intros Hacc. unfold IrcBot.bind, IrcBot.print, IrcBot.privmsg. by rewrite Hacc.
Qed.

(** [handle_message] up to the response of the API. *)
Lemma handle_message_unfold env target nick user_msg w :
  exists w1,
    IrcBot.sent w1 = IrcBot.sent w
    /\ IrcBot.posted w1 = IrcBot.posted w ++ [payload_of w nick user_msg]
    /\ IrcBot.db_conn w1 = IrcBot.db_conn w
    /\ IrcBot.ticks w1 = IrcBot.ticks w
    /\ IrcBot.handle_message env target nick user_msg w
       = match IrcBot.post env (payload_of w nick user_msg) with
         | Raise ex =>
             (IrcBot.bind (IrcBot.print (lit "[DEBUG] Exception: " ++ exc_str ex))
                (fun _ => IrcBot.privmsg env target (lit "Error: " ++ exc_str ex)))
               w1
         | Ret r =>
             IrcBot.try_except (IrcBot.relay env target nick r)
               (fun ex =>
                  IrcBot.bind
                    (IrcBot.print (lit "[DEBUG] Exception: " ++ exc_str ex))
                    (fun _ => IrcBot.privmsg env target
                                (lit "Error: " ++ exc_str ex)))
               (IrcBot.mkBot (IrcBot.db_conn w1) (IrcBot.sent w1)
                  (IrcBot.printed w1
                   ++ [lit "[DEBUG] API status: "
                       ++ str_of_N (N.of_nat (IrcBot.status_code r));
                       lit "[DEBUG] API raw response: " ++ IrcBot.text r])
                  (IrcBot.posted w1) (IrcBot.ticks w1))
         end.
Proof.
  destruct (recall_facts_run nick 50 w) as (w0 & Hrecall & Hsent & Hposted & Hconn & Hticks).
  unfold IrcBot.handle_message. cbv zeta. unfold IrcBot.try_except at 1.
  unfold IrcBot.bind at 1. rewrite Hrecall.
  rewrite full_query_with. fold (payload_of w nick user_msg).
  unfold IrcBot.bind at 1, IrcBot.print at 1.
  unfold IrcBot.bind at 1, IrcBot.requests_post. cbn [IrcBot.posted IrcBot.sent
    IrcBot.db_conn IrcBot.printed IrcBot.ticks].
  eexists (IrcBot.mkBot (IrcBot.db_conn w0) (IrcBot.sent w0) _
             (IrcBot.posted w0 ++ [payload_of w nick user_msg]) (IrcBot.ticks w0)).
  split; [done|]. split; [cbn; by rewrite Hposted|]. split; [done|].
  split; [done|].
  destruct (IrcBot.post env (payload_of w nick user_msg)) as [r|ex]; [|done].
  unfold IrcBot.bind at 1, IrcBot.print at 1.
  unfold IrcBot.bind at 1, IrcBot.print at 1.
  cbn [IrcBot.posted IrcBot.sent IrcBot.db_conn IrcBot.printed IrcBot.ticks].
  unfold IrcBot.try_except. rewrite <- app_assoc. done.
Qed.

Lemma relay_error_status env target nick r w :
  IrcBot.accepting env ->
  IrcBot.status_code r <> 200 ->
  IrcBot.relay env target nick r w
  = (Ret tt,
     IrcBot.mkBot (IrcBot.db_conn w)
       (IrcBot.sent w
        ++ [(target, lit "API error " ++ str_of_N (N.of_nat (IrcBot.status_code r)))])
       (IrcBot.printed w) (IrcBot.posted w) (IrcBot.ticks w)).
Proof.
  intros Hacc Hstatus. unfold IrcBot.relay.
  destruct (Nat.eqb_spec (IrcBot.status_code r) 200); [done|].
  unfold IrcBot.privmsg. by rewrite Hacc.
Qed.

Lemma relay_bad_json env target nick r ex w :
  IrcBot.status_code r = 200 ->
  IrcBot.json_body r = Raise ex ->
  IrcBot.relay env target nick r w = (Raise ex, w).
Proof.
  intros Hstatus Hjson. unfold IrcBot.relay. rewrite Hstatus. cbn [Nat.eqb].
  change (200 =? 200) with true. cbv iota. unfold IrcBot.bind. by rewrite Hjson.
Qed.

Lemma relay_no_reply env target nick r data w :
  IrcBot.accepting env ->
  IrcBot.status_code r = 200 ->
  IrcBot.json_body r = Ret data ->
  reply_of data = [] ->
  IrcBot.relay env target nick r w
  = (Ret tt,
     IrcBot.mkBot (IrcBot.db_conn w)
       (IrcBot.sent w ++ [(target, lit "No reply from API.")])
       (IrcBot.printed w) (IrcBot.posted w) (IrcBot.ticks w)).
Proof.
  intros Hacc Hstatus Hjson Hreply. unfold IrcBot.relay. rewrite Hstatus.
  change (200 =? 200) with true. cbv iota. unfold IrcBot.bind at 1. rewrite Hjson.
  fold (reply_of data). rewrite Hreply. cbn [truthy].
  unfold IrcBot.privmsg. by rewrite Hacc.
Qed.

Lemma relay_reply env target nick r data w :
  IrcBot.accepting env ->
  IrcBot.status_code r = 200 ->
  IrcBot.json_body r = Ret data ->
  reply_of data <> [] ->
  exists w',
    IrcBot.relay env target nick r w = (Ret tt, w')
    /\ IrcBot.sent w'
       = IrcBot.sent w ++ map (pair target) (IrcBot.reply_chunks (reply_of data))
    /\ IrcBot.posted w' = IrcBot.posted w
    /\ forall db,
        IrcBot.db_conn w = Some db -> IrcBot.memory_fault db = None ->
        IrcBot.db_conn w'
        = Some (IrcBot.mkMemory
                  (IrcBot.memory db
                   ++ [mkRow nick (lit "sky") (reply_of data) (lit "bot")
                             (IrcBot.bot_clock env (IrcBot.ticks w))]) None).
Proof.
  intros Hacc Hstatus Hjson Hreply. unfold IrcBot.relay. rewrite Hstatus.
  change (200 =? 200) with true. cbv iota. unfold IrcBot.bind at 1. rewrite Hjson.
  fold (reply_of data). apply truthy_true in Hreply. rewrite Hreply.
  cbv zeta. unfold IrcBot.bind at 1.
  destruct (save_fact_run env nick (lit "sky") (reply_of data) (lit "bot") w)
    as (w1 & -> & Hsent & Hposted & Hdb).
  rewrite send_lines_accepting by done. eexists. split; [done|].
  cbn [IrcBot.sent IrcBot.posted IrcBot.db_conn]. rewrite Hsent.
  split; [done|]. split; [done|exact Hdb].
Qed.





(** ** The memory window of the bridge *)

Lemma posts_nothing_ret {A} (a : A) : posts_nothing (IrcBot.ret a).
Proof. by intros w. Qed.

Lemma posts_nothing_bind {A C} (m : IrcBot.B A) (k : A -> IrcBot.B C) :
  posts_nothing m -> (forall a, posts_nothing (k a)) -> posts_nothing (IrcBot.bind m k).
Proof.
  intros Hm Hk w. unfold IrcBot.bind. specialize (Hm w).
  destruct (m w) as [[a|e] w']; simpl in *; [|done]. by rewrite Hk.
Qed.

Lemma posts_nothing_try {A} (body : IrcBot.B A) (handler : PyException -> IrcBot.B A) :
  posts_nothing body -> (forall e, posts_nothing (handler e)) ->
  posts_nothing (IrcBot.try_except body handler).
Proof.
  intros Hb Hh w. unfold IrcBot.try_except. specialize (Hb w).
  destruct (body w) as [[a|e] w']; simpl in *; [done|]. by rewrite Hh.
Qed.

Lemma posts_nothing_print line : posts_nothing (IrcBot.print line).
Proof. by intros w. Qed.

Lemma posts_nothing_privmsg env target text :
  posts_nothing (IrcBot.privmsg env target text).
Proof.
  intros w. unfold IrcBot.privmsg. by destruct (IrcBot.privmsg_error env target text).
Qed.

Lemma posts_nothing_save_fact env session_id provider message mtype :
  posts_nothing (IrcBot.save_fact env session_id provider message mtype).
Proof.
  intros w.
  by destruct (save_fact_run env session_id provider message mtype w)
    as (w' & -> & _ & Hposted & _).
Qed.

Lemma posts_nothing_send_chunks env target line starts :
  posts_nothing (IrcBot.send_chunks env target line starts).
Proof.
  induction starts as [|start rest IH]; cbn [IrcBot.send_chunks].
  - apply posts_nothing_ret.
  - apply posts_nothing_bind; [apply posts_nothing_privmsg|done].
Qed.

Lemma posts_nothing_send_lines env target lines :
  posts_nothing (IrcBot.send_lines env target lines).
Proof.
  induction lines as [|line rest IH]; cbn [IrcBot.send_lines].
  - apply posts_nothing_ret.
  - apply posts_nothing_bind; [apply posts_nothing_send_chunks|done].
Qed.

Lemma posts_nothing_relay env target nick r :
  posts_nothing (IrcBot.relay env target nick r).
Proof.
  unfold IrcBot.relay.
  destruct (IrcBot.status_code r =? 200); [|apply posts_nothing_privmsg].
  apply posts_nothing_bind; [by intros w|]. intros data. cbv zeta.
  destruct (truthy _); [|apply posts_nothing_privmsg].
  apply posts_nothing_bind; [apply posts_nothing_save_fact|].
  intros _. apply posts_nothing_send_lines.
Qed.

Lemma posts_nothing_handler env target ex :
  posts_nothing
    (IrcBot.bind (IrcBot.print (lit "[DEBUG] Exception: " ++ exc_str ex))
       (fun _ => IrcBot.privmsg env target (lit "Error: " ++ exc_str ex))).
Proof.
  apply posts_nothing_bind; [apply posts_nothing_print|].
  intros _. apply posts_nothing_privmsg.
Qed.

(** The last twelve of the fifty newest, newest first, are the twelve
    oldest of the fifty newest. *)
Lemma last12_of_newest {X} (l : list X) :
  last12 (take 50 (rev l)) = rev (take 12 (drop (length l - 50) l)).
Proof.
  rewrite firstn_rev. set (m := drop (length l - 50) l).
  unfold last12. rewrite length_rev, skipn_rev. f_equal.
  destruct (decide (length m <= 12)) as [Hle|Hgt].
  - replace (length m - (length m - 12)) with (length m) by lia.
    by rewrite !take_ge by lia.
  - f_equal. lia.
Qed.

(** X23: what the bridge remembers.  [handle_message] posts exactly one
    payload, whatever happens afterwards: the nick as session, provider
    "sky", and the message followed by a memory context when the nick has
    facts.  With a working database the context is built from the fifty
    newest facts of the nick, of which it keeps the twelve oldest, newest
    first: so a nick with at most twelve facts gets all of them, and from
    the thirteenth fact on the newest facts are left out. *)
Theorem bridge_memory_window env target nick user_msg w db :
  IrcBot.db_conn w = Some db ->
  IrcBot.memory_fault db = None ->
  let facts := IrcBot.facts_of (IrcBot.memory db) nick in
  IrcBot.posted (IrcBot.handle_message env target nick user_msg w).2
  = IrcBot.posted w
    ++ [IrcBot.mkPayload nick (lit "sky")
          (IrcBot.query_with user_msg
             (rev (take 12 (drop (length facts - 50) facts))))]
  /\ (length facts <= 12 ->
      rev (take 12 (drop (length facts - 50) facts)) = rev facts).
Proof.
  intros Hconn Hfault facts. split.
  - destruct (handle_message_unfold env target nick user_msg w)
      as (w1 & _ & Hposted & _ & _ & ->).
    assert (payload_of w nick user_msg
            = IrcBot.mkPayload nick (lit "sky")
                (IrcBot.query_with user_msg
                   (rev (take 12 (drop (length facts - 50) facts))))) as <-.
    { unfold payload_of, IrcBot.recalled. rewrite Hconn, Hfault.
      by rewrite last12_of_newest. }
    destruct (IrcBot.post env (payload_of w nick user_msg)) as [r|ex].
    + rewrite posts_nothing_try;
        [by rewrite <- Hposted|apply posts_nothing_relay|].
      intros ex. apply posts_nothing_handler.
    + by rewrite posts_nothing_handler.
  - intros Hfew. replace (length facts - 50) with 0 by lia.
    by rewrite take_ge.
Qed.

Lemma bridge_memory_window_sample :
  IrcBot.posted
    (IrcBot.handle_message IrcBot.sample_bot_env (lit "#Amalek") (lit "ann")
       (lit "hi") (IrcBot.mkBot (Some sample_memory) [] [] [] 0)).2
  = [IrcBot.mkPayload (lit "ann") (lit "sky")
       (lit "hi" ++ [10; 10]%N ++ lit "Memory context:" ++ [10%N]
        ++ lit "sky: second" ++ [10%N] ++ lit "sky: first")].
Proof.
  apply (proj1 (bridge_memory_window IrcBot.sample_bot_env (lit "#Amalek")
                  (lit "ann") (lit "hi")
                  (IrcBot.mkBot (Some sample_memory) [] [] [] 0) sample_memory
                  eq_refl eq_refl)).
Defined.

(** ** The memory of the bridge *)

Lemma recall_facts_healthy nick limit w db :
  IrcBot.db_conn w = Some db -> IrcBot.memory_fault db = None ->
  (IrcBot.recall_facts nick limit w).1
  = Ret (take limit (rev (IrcBot.facts_of (IrcBot.memory db) nick))).
Proof.
  intros Hconn Hfault.
  destruct (recall_facts_run nick limit w) as (w' & -> & _).
  unfold IrcBot.recalled. by rewrite Hconn, Hfault.
Qed.

Lemma take_cons_take {X} limit (x : X) l :
  take limit (x :: take limit l) = take limit (x :: l).
Proof.
  destruct limit as [|k]; [done|]. cbn [take]. f_equal.
  rewrite take_take. f_equal. lia.
Qed.

(** X24: the bridge recalls the newest fact first.  With a working
    database, after [save_fact] for a nick a recall for that nick returns
    the new fact followed by what it returned before, cut at the limit; the
    facts recalled for any other nick are unchanged. *)
Theorem save_fact_then_recall env nick provider message mtype limit w db old :
  IrcBot.db_conn w = Some db ->
  IrcBot.memory_fault db = None ->
  (IrcBot.recall_facts nick limit w).1 = Ret old ->
  let w' := (IrcBot.save_fact env nick provider message mtype w).2 in
  (IrcBot.recall_facts nick limit w').1
  = Ret (take limit (IrcBot.mkFact provider message :: old))
  /\ forall other n,
      other <> nick ->
      (IrcBot.recall_facts other n w').1 = (IrcBot.recall_facts other n w).1.
Proof.
  intros Hconn Hfault Hold w'. subst w'.
  rewrite (recall_facts_healthy _ _ _ db) in Hold by done. simplify_eq.
  destruct (save_fact_run env nick provider message mtype w)
    as (w' & Hrun & _ & _ & Hdb).
  rewrite Hrun. cbn [snd]. specialize (Hdb db Hconn Hfault).
  set (row := mkRow _ _ _ _ _) in Hdb.
  assert (forall who n,
    (IrcBot.recall_facts who n w').1
    = Ret (take n (rev (IrcBot.facts_of (IrcBot.memory db ++ [row]) who)))) as Hrecall.
  { intros who n.
    by rewrite (recall_facts_healthy _ _ _ (IrcBot.mkMemory (IrcBot.memory db ++ [row]) None)). }
  split.
  - rewrite Hrecall, take_cons_take. do 2 f_equal.
    unfold IrcBot.facts_of. rewrite filter_app, filter_cons_True by done.
    rewrite map_app, rev_app_distr. done.
  - intros other n Hother.
    rewrite Hrecall, (recall_facts_healthy _ _ _ db) by done. do 3 f_equal.
    unfold IrcBot.facts_of. rewrite filter_app.
    rewrite filter_cons_False by (simpl; congruence).
    by rewrite app_nil_r.
Qed.

Lemma save_fact_then_recall_sample :
  (IrcBot.recall_facts (lit "ann") 2
     (IrcBot.save_fact IrcBot.sample_bot_env (lit "ann") (lit "sky") (lit "third")
        (lit "bot") (IrcBot.mkBot (Some sample_memory) [] [] [] 0)).2).1
  = Ret [IrcBot.mkFact (lit "sky") (lit "third");
         IrcBot.mkFact (lit "sky") (lit "second")].
Proof.
  apply (save_fact_then_recall IrcBot.sample_bot_env (lit "ann") (lit "sky")
           (lit "third") (lit "bot") 2
           (IrcBot.mkBot (Some sample_memory) [] [] [] 0) sample_memory
           [IrcBot.mkFact (lit "sky") (lit "second");
            IrcBot.mkFact (lit "sky") (lit "first")]);
    reflexivity.
Defined.

(** ** The bridge and the relay together *)

Lemma lstrip_keeps_nonspace c s :
  c ∈ s -> is_space c = false -> c ∈ lstrip s.
Proof.
  intros Hin Hc. induction s as [|c0 s IH]; [done|]. simpl.
  destruct (is_space c0) eqn:Hc0; [|done].
  apply elem_of_cons in Hin as [->|Hin]; [congruence|]. by apply IH.
Qed.

(** A string with a character that is not whitespace is not blank. *)
Lemma strip_nonblank c s : c ∈ s -> is_space c = false -> strip s <> [].
Proof.
  intros Hin Hc.
  assert (c ∈ strip s) as Hstrip.
  { unfold strip, rstrip. apply list_elem_of_In, in_rev. rewrite rev_involutive.
    apply list_elem_of_In, lstrip_keeps_nonspace; [|done].
    apply list_elem_of_In, in_rev. rewrite rev_involutive.
    by apply list_elem_of_In, lstrip_keeps_nonspace. }
  intros Hnil. rewrite Hnil in Hstrip. by apply elem_of_nil in Hstrip.
Qed.

Lemma query_with_keeps c user_msg window :
  c ∈ user_msg -> c ∈ IrcBot.query_with user_msg window.
Proof.
  intros Hin. destruct window; [done|]. unfold IrcBot.query_with.
  apply elem_of_app. by left.
Qed.

Lemma reply_text_nonempty env provider prompt w :
  reply_text provider (run_tgpt_blocking env provider prompt w).1 <> [].
Proof.
  destruct (subprocess_run env (tgpt_cmd env provider prompt) (TGPT_TIMEOUT env))
    as [res|e] eqn:Hres.
  - rewrite (run_tgpt_blocking_completed _ _ _ res) by done. cbn [reply_text].
    destruct (truthy (strip (stdout res))) eqn:Hout; [by apply truthy_true|].
    destruct (truthy (strip (stderr res)));
      [apply fmt_error_nonempty|apply fmt_no_output_nonempty].
  - rewrite (run_tgpt_blocking_raised _ _ _ e) by done. apply fmt_error_nonempty.
Qed.

Lemma sky_valid : lit "sky" ∈ VALID_PROVIDERS.
Proof. vm_compute. apply list_elem_of_further, list_elem_of_here. Qed.

(** The response of /ask to a post of the bridge with a non-blank query:
    the single reply of "sky". *)
Lemma ask_for_bridge env nick query w :
  strip query <> [] ->
  exists text saved ts w',
    ask env (request_of (IrcBot.mkPayload nick (lit "sky") query)) w
    = (Ret (jsonify (JObj (reply_members (mkReply (lit "sky") text ts)
                           ++ saved_members saved))), w')
    /\ text <> [].
Proof.
  intros Hquery. rewrite ask_unfold. cbv zeta.
  assert (req_query (request_of (IrcBot.mkPayload nick (lit "sky") query))
          = strip query) as ->.
  { unfold req_query, request_of. cbn [form_query IrcBot.p_query opt_or].
    by rewrite py_or_empty. }
  assert (req_provider (request_of (IrcBot.mkPayload nick (lit "sky") query))
          = lit "sky") as -> by reflexivity.
  apply truthy_true in Hquery. rewrite Hquery. cbn [negb andb].
  destruct (decide (lit "sky" = lit "group")) as [Heq|_]; [discriminate Heq|].
  rewrite (bool_decide_eq_true_2 _ sky_valid). cbn [negb].
  match goal with
  | |- context [answer env ?sid ?q ?sd ?fn ?sf ?ss [lit "sky"] ?w1] =>
      destruct (answer_run env sid q sd fn sf ss [lit "sky"] w1)
        as (saved & w' & L & -> & _)
  end.
  cbn [map stamped ask_response]. do 4 eexists. split; [done|].
  apply reply_text_nonempty.
Qed.

Lemma data_of_single_reply r saved :
  data_of (jsonify (JObj (reply_members r ++ saved_members saved)))
  = IrcBot.mkData (Some (reply r)) None.
Proof.
  unfold data_of, jsonify, text_member. cbn [body].
  rewrite (member_reply_members (lit "message")) by (vm_compute; discriminate).
  rewrite member_saved by (vm_compute; discriminate).
  reflexivity.
Qed.

Lemma json_body_of_jsonify j :
  IrcBot.json_body (http_of (jsonify j)) = Ret (data_of (jsonify j)).
Proof. reflexivity. Qed.


